(** * Network_analyzer: the analysis pipeline of [backend/network_analysis.py]

    A shallow embedding of [NetworkAnalyzer]: the address filter
    ([is_valid_ip]), the per-packet feature extraction, the grouped
    aggregations of [analyze_packet_data] and the two detection heuristics,
    followed by the properties stated for them. *)

From Stdlib Require Import ZArith NArith QArith Qminmax Ascii String List Lia.
From stdpp Require Import gmap strings list fin_maps sorting pretty.

Local Open Scope string_scope.
Local Open Scope list_scope.

(** ** Regular expressions, as Python's [re] matches them

    [re] is a backtracking matcher.  [Re.run r s] lists, in the order the
    matcher tries them, the remainders of [s] left after matching [r] against
    a prefix of [s]. *)

Module Re.

Inductive regex : Type :=
| Lit (c : ascii)                 (* a literal character, such as [\.] *)
| Range (lo hi : ascii)           (* a class [[lo-hi]] *)
| OneOf (cs : list ascii)         (* a class listing its members, [[01]] *)
| Seq (a b : regex)               (* [ab] *)
| Alt (a b : regex)               (* [a|b] *)
| Opt (a : regex)                 (* [a?], greedy *)
| Times (n : nat) (a : regex).    (* [a{n}] *)

Definition in_range (lo hi c : ascii) : bool :=
  ((N_of_ascii lo <=? N_of_ascii c) && (N_of_ascii c <=? N_of_ascii hi))%N.

Fixpoint iterate (n : nat) (f : list ascii -> list (list ascii)) (s : list ascii)
  : list (list ascii) :=
  match n with
  | O => [s]
  | S k => flat_map (iterate k f) (f s)
  end.

Fixpoint run (r : regex) (s : list ascii) : list (list ascii) :=
  match r with
  | Lit c =>
      match s with
      | x :: t => if Ascii.eqb x c then [t] else []
      | [] => []
      end
  | Range lo hi =>
      match s with
      | x :: t => if in_range lo hi x then [t] else []
      | [] => []
      end
  | OneOf cs =>
      match s with
      | x :: t => if existsb (Ascii.eqb x) cs then [t] else []
      | [] => []
      end
  | Seq a b => flat_map (run b) (run a s)
  | Alt a b => run a s ++ run b s
  | Opt a => run a s ++ [s]
  | Times n a => iterate n (run a) s
  end.

Definition line_feed : ascii := "010"%char.

(** [$] without [re.MULTILINE]: the end of the string, or the position just
    before a line feed that ends the string. *)
Definition at_dollar (rest : list ascii) : bool :=
  match rest with
  | [] => true
  | [c] => Ascii.eqb c line_feed
  | _ => false
  end.

(** Truth value of [re.match('^' r '$', s)].  [re.match] only tries position
    0, where [^] holds. *)
Definition match_anchored (r : regex) (s : string) : bool :=
  existsb at_dollar (run r (list_ascii_of_string s)).

(** The words a regular expression denotes. *)
Fixpoint power (n : nat) (L : list ascii -> Prop) (w : list ascii) : Prop :=
  match n with
  | O => w = []
  | S k => exists u v, w = u ++ v /\ L u /\ power k L v
  end.

Fixpoint lang (r : regex) (w : list ascii) : Prop :=
  match r with
  | Lit c => w = [c]
  | Range lo hi => exists c, w = [c] /\ in_range lo hi c = true
  | OneOf cs => exists c, w = [c] /\ existsb (Ascii.eqb c) cs = true
  | Seq a b => exists u v, w = u ++ v /\ lang a u /\ lang b v
  | Alt a b => lang a w \/ lang b w
  | Opt a => lang a w \/ w = []
  | Times n a => power n (lang a) w
  end.

End Re.

Import Re.

(** ** [NetworkAnalyzer.is_valid_ip] *)

(** [(25[0-5]|2[0-4][0-9]|[01]?[0-9][0-9]?)] *)
Definition octet : regex :=
  Alt (Seq (Lit "2") (Seq (Lit "5") (Range "0" "5")))
 (Alt (Seq (Lit "2") (Seq (Range "0" "4") (Range "0" "9")))
      (Seq (Opt (OneOf ["0"; "1"]%char)) (Seq (Range "0" "9") (Opt (Range "0" "9"))))).

(** [^((25[0-5]|2[0-4][0-9]|[01]?[0-9][0-9]?)\.){3}(25[0-5]|2[0-4][0-9]|[01]?[0-9][0-9]?)$],
    the anchors being those of [match_anchored]. *)
Definition pattern : regex :=
  Seq (Times 3 (Seq octet (Lit "."))) octet.

(** [return re.match(pattern, ip) and not ip.startswith('0.')].  The
    addresses are Python strings, so the [except] branch is not taken. *)
Definition is_valid_ip (ip : string) : bool :=
  match_anchored pattern ip && negb (String.prefix "0." ip).

(** ** Dotted quads, as the specification words them

    Four dot-separated octets, each a decimal numeral of one to three digits
    whose value lies in 0..255. *)

Definition is_digit (c : ascii) : bool := in_range "0" "9" c.

Definition digit_val (c : ascii) : N := (N_of_ascii c - 48)%N.

Definition decimal (o : list ascii) : N :=
  fold_left (fun acc c => (10 * acc + digit_val c)%N) o 0%N.

Definition is_octet (o : list ascii) : bool :=
  Nat.leb 1 (length o) && Nat.leb (length o) 3 && forallb is_digit o
  && N.leb (decimal o) 255.

Fixpoint split_dot (s : list ascii) : list (list ascii) :=
  match s with
  | [] => [[]]
  | c :: t =>
      if Ascii.eqb c "." then [] :: split_dot t
      else match split_dot t with
           | h :: r => (c :: h) :: r
           | [] => [[c]]
           end
  end.

Definition quad (w : list ascii) : bool :=
  match split_dot w with
  | [a; b; c; d] => is_octet a && is_octet b && is_octet c && is_octet d
  | _ => false
  end.

Definition dotted_quad (s : string) : bool := quad (list_ascii_of_string s).

(** The inverse of [split_dot]. *)
Fixpoint join_dot (parts : list (list ascii)) : list ascii :=
  match parts with
  | [] => []
  | [a] => a
  | a :: rest => a ++ "."%char :: join_dot rest
  end.

Definition no_dot (a : list ascii) : Prop := ~ In "."%char a.

Definition code (c : ascii) : N := N_of_ascii c.

Definition ends_with_lf (s : string) : bool :=
  match last (list_ascii_of_string s) with
  | Some c => Ascii.eqb c line_feed
  | None => false
  end.

(** ** Exceptions and logging

    A computation of the analyzer either returns or raises, and appends to
    the log.  The log keeps the records written at WARNING and ERROR level;
    DEBUG and INFO records are not kept. *)

Inductive exn : Type :=
| KeyError (key : string)
| IndexError (msg : string)
| SystemExit (status : Z).

Inductive level : Type := WARNING | ERROR.

Inductive outcome (A : Type) : Type :=
| Returned (a : A)
| Raised (e : exn).
Arguments Returned {A} a.
Arguments Raised {A} e.

Definition Py (A : Type) : Type :=
  list (level * string) -> outcome A * list (level * string).

#[global] Instance Py_ret : MRet Py := fun A a log => (Returned a, log).

#[global] Instance Py_bind : MBind Py := fun A B f m log =>
  match m log with
  | (Returned a, log') => f a log'
  | (Raised e, log') => (Raised e, log')
  end.

#[global] Instance Py_throw : MThrow exn Py := fun A e log => (Raised e, log).

Definition logger (lvl : level) (msg : string) : Py unit :=
  fun log => (Returned tt, log ++ [(lvl, msg)]).

(** [sys.exit(status)] raises [SystemExit], which no [except Exception]
    clause catches. *)
Definition sys_exit {A : Type} (status : Z) : Py A := mthrow (SystemExit status).

(** A call from a fresh process: the log starts empty. *)
Definition call {A : Type} (m : Py A) : outcome A * list (level * string) := m [].

(** ** Data frames (pandas)

    A frame has named columns and a list of rows.  A row is a record; the
    column named [n] is read through the field that carries it. *)

Record DataFrame (R : Type) : Type :=
  { columns : list string; records : list R }.
Arguments columns {R} d.
Arguments records {R} d.

(** [pd.DataFrame(data)] for a list of dicts with the keys [keys]: a frame
    built from the empty list has no column. *)
Definition from_records {R : Type} (keys : list string) (data : list R) : DataFrame R :=
  {| columns := match data with [] => [] | _ :: _ => keys end;
     records := data |}.

(** [df.empty]: one of the two axes has length 0. *)
Definition empty {R : Type} (df : DataFrame R) : bool :=
  match columns df, records df with
  | _ :: _, _ :: _ => false
  | _, _ => true
  end.

Definition has_column {R : Type} (df : DataFrame R) (name : string) : bool :=
  existsb (String.eqb name) (columns df).

(** [df[name]]: [KeyError] when the frame has no such column. *)
Definition getitem {R V : Type} (df : DataFrame R) (name : string) (field : R -> V)
  : Py (list V) :=
  if has_column df name then mret (map field (records df))
  else mthrow (KeyError name).

(** [df[mask]] for a boolean mask computed row by row. *)
Definition where_ {R : Type} (df : DataFrame R) (mask : R -> bool) : DataFrame R :=
  {| columns := columns df; records := List.filter mask (records df) |}.

(** Group sums: the map from each key that occurs to the sum of [val] over
    its rows. *)
Definition sum_by {R K : Type} `{Countable K} (key : R -> K) (val : R -> nat)
    (rows : list R) : gmap K nat :=
  foldr (fun r acc => <[key r := val r + default 0 (acc !! key r)]> acc) ∅ rows.

(** Group sizes. *)
Definition count_by {R K : Type} `{Countable K} (key : R -> K) (rows : list R)
  : gmap K nat :=
  sum_by key (fun _ => 1) rows.

(** [df.groupby(names).size()], [key] reading the columns [names] of a row:
    a map from the keys that occur to their number of rows (pandas lists them
    in key order).  [KeyError] on the first name that is not a column. *)
Definition groupby_size {R K : Type} `{Countable K} (df : DataFrame R)
    (names : list string) (key : R -> K) : Py (gmap K nat) :=
  match find (fun n => negb (has_column df n)) names with
  | Some n => mthrow (KeyError n)
  | None => mret (count_by key (records df))
  end.

(** [df[name].value_counts()] *)
Definition value_counts {R K : Type} `{Countable K} (df : DataFrame R)
    (name : string) (field : R -> K) : Py (gmap K nat) :=
  col ← getitem df name field;
  mret (count_by id col).

(** [series.sum()] of a series of counts indexed by group key. *)
Definition series_sum {K : Type} `{Countable K} (s : gmap K nat) : nat :=
  map_fold (fun _ c acc => c + acc) 0 s.

(** [count / total * 100].  The floats of pandas are taken as exact
    rationals. *)
Definition percent (count total : nat) : Q :=
  (inject_Z (Z.of_nat count) / inject_Z (Z.of_nat total) * 100)%Q.

(** [series.max()] and [series.min()]; [None] stands for the NaN of an empty
    series. *)
Definition series_max (s : list Q) : option Q :=
  match s with
  | [] => None
  | t :: rest => Some (fold_left Qmax rest t)
  end.

Definition series_min (s : list Q) : option Q :=
  match s with
  | [] => None
  | t :: rest => Some (fold_left Qmin rest t)
  end.

(** [series.max() - series.min()] *)
Definition series_span (s : list Q) : option Q :=
  match series_max s, series_min s with
  | Some hi, Some lo => Some (hi - lo)%Q
  | _, _ => None
  end.

(** [time_span == 0]; a NaN is not equal to 0. *)
Definition span_is_zero (time_span : option Q) : bool :=
  match time_span with
  | Some d => Qeq_bool d 0
  | None => false
  end.

(** [count / time_span > rate_threshold]; no comparison with NaN holds. *)
Definition rate_exceeds (time_span : option Q) (rate_threshold : Q) (count : nat) : bool :=
  match time_span with
  | Some d => negb (Qle_bool (inject_Z (Z.of_nat count) / d)%Q rate_threshold)
  | None => false
  end.

(** Keys of a series in index order, as [', '.join] walks them. *)
Definition index_order (keys : list string) : list string :=
  merge_sort (fun a b : string => String.leb a b) keys.

(** ** Decoded packets (scapy) *)

Record IP : Type := { src : string; dst : string; proto : Z }.
Record TCP : Type := { sport : Z; dport : Z; flags : string }.
(** [qd] is the name of the question section, [None] when there is none. *)
Record DNS : Type := { qd : option string }.
Record ARP : Type := { hwsrc : string; hwdst : string; op : Z }.

(** [layer_IP p] is [Some] when [IP in packet]; [pkt_len] is [len(packet)]
    and [pkt_time] is [float(packet.time)], taken as an exact rational. *)
Record Packet : Type :=
  { layer_IP : option IP;
    layer_TCP : option TCP;
    layer_DNS : option DNS;
    layer_ARP : option ARP;
    pkt_len : Z;
    pkt_time : Q }.


(** ** Feature records *)

(** Rows of [self.df].  [protocol] holds a number until
    [analyze_packet_data] replaces it by the protocol's name. *)
Module Gen.
Record t (P : Type) : Type :=
  { src_ip : string;
    dst_ip : string;
    protocol : P;
    size : Z;
    time : Q;
    src_port : Z;
    dst_port : Z;
    tcp_flags : string }.
Arguments src_ip {P} t.
Arguments dst_ip {P} t.
Arguments protocol {P} t.
Arguments size {P} t.
Arguments time {P} t.
Arguments src_port {P} t.
Arguments dst_port {P} t.
Arguments tcp_flags {P} t.
Definition keys : list string :=
  ["src_ip"; "dst_ip"; "protocol"; "size"; "time"; "src_port"; "dst_port"; "tcp_flags"].
End Gen.

(** Rows of [self.df_security]. *)
Module Sec.
Record t : Type :=
  { src_ip : string;
    dst_ip : string;
    protocol : Z;
    dst_port : Z;
    tcp_flags : string;
    time : Q }.
Definition keys : list string :=
  ["src_ip"; "dst_ip"; "protocol"; "dst_port"; "tcp_flags"; "time"].
End Sec.

(** Rows of the frame of [extract_dns_data]. *)
Module Dns.
Record t : Type := { src_ip : string; dst_ip : string; query : option string }.
Definition keys : list string := ["src_ip"; "dst_ip"; "query"].
End Dns.

(** Rows of the frame of [extract_non_ip_data]. *)
Module Arp.
Record t : Type := { src_mac : string; dst_mac : string; op : Z }.
Definition keys : list string := ["src_mac"; "dst_mac"; "op"].
End Arp.

(** ** Feature extraction *)

(** [NetworkAnalyzer.process_packet] *)
Definition process_packet (packet : Packet) : option (Gen.t Z) :=
  match layer_IP packet with
  | Some ip =>
      let src_ip := src ip in
      let dst_ip := dst ip in
      if is_valid_ip src_ip && is_valid_ip dst_ip then
        Some {| Gen.src_ip := src_ip;
                Gen.dst_ip := dst_ip;
                Gen.protocol := proto ip;
                Gen.size := pkt_len packet;
                Gen.time := pkt_time packet;
                Gen.src_port := match layer_TCP packet with Some tcp => sport tcp | None => 0%Z end;
                Gen.dst_port := match layer_TCP packet with Some tcp => dport tcp | None => 0%Z end;
                Gen.tcp_flags := match layer_TCP packet with Some tcp => flags tcp | None => "" end |}
      else None
  | None => None
  end.

(** The body of the loop of [NetworkAnalyzer.extract_security_data]: the row
    appended for [packet], if any. *)
Definition security_record (packet : Packet) : option Sec.t :=
  match layer_IP packet with
  | Some ip =>
      let src_ip := src ip in
      let dst_ip := dst ip in
      if is_valid_ip src_ip && is_valid_ip dst_ip then
        Some {| Sec.src_ip := src_ip;
                Sec.dst_ip := dst_ip;
                Sec.protocol := proto ip;
                Sec.dst_port := match layer_TCP packet with Some tcp => dport tcp | None => 0%Z end;
                Sec.tcp_flags := match layer_TCP packet with Some tcp => flags tcp | None => "" end;
                Sec.time := pkt_time packet |}
      else None
  | None => None
  end.




(** [NetworkAnalyzer.extract_non_ip_data] *)
Definition extract_non_ip_data (packets : list Packet) : DataFrame Arp.t :=
  from_records Arp.keys
    (omap (fun packet =>
             match layer_ARP packet with
             | Some arp => Some {| Arp.src_mac := hwsrc arp; Arp.dst_mac := hwdst arp;
                                   Arp.op := op arp |}
             | None => None
             end) packets).

(** [str.contains('S')]: the flags hold the letter S. *)
Definition contains_S (s : string) : bool :=
  existsb (Ascii.eqb "S") (list_ascii_of_string s).

(** The table of [load_protocol_map], before [protocol_map.json] is merged. *)
Definition protocol_dict : gmap Z string :=
  list_to_map
    [(0, "HOPOPT"); (1, "ICMP"); (2, "IGMP"); (6, "TCP"); (17, "UDP");
     (19, "CHARGEN"); (37, "Time"); (89, "OSPF"); (118, "STP"); (120, "SMP");
     (127, "Private"); (170, "EMFAS"); (240, "Experimental")]%Z.

(** The tables of [analyze_packet_data], each keyed by its group; a value is
    the row's count, with its percentage where the table has one. *)
Record Analysis : Type :=
  { total_bandwidth : Z;
    protocol_counts_df : gmap string (nat * Q);
    ip_communication_table : gmap (string * string) (nat * Q);
    protocol_frequency : gmap string nat;
    ip_communication_protocols : gmap (string * string * string) (nat * Q);
    flow_counts : gmap (string * string * Z * Z * string) nat }.

(** What [run] has computed when it reaches [print_results]. *)
Record Report : Type :=
  { analysis : Analysis;
    potential_scanners : gmap string nat;
    ddos_targets : gset string }.

Section Analyzer.

(** The fields of [self] set by [__init__]. *)
Variable pcap_file : string.
Variable port_scan_threshold : Z.
Variable protocol_map : gmap Z string.

(** [NetworkAnalyzer.protocol_name] *)
Definition protocol_name (number : Z) : string :=
  default ("Unknown(" +:+ pretty number +:+ ")") (protocol_map !! number).

(** [NetworkAnalyzer.read_pcap], for a file that exists and that [PcapReader]
    reads as [capture]. *)
Definition read_pcap (capture : list Packet) : Py (list Packet) :=
  let packets := capture in
  match packets with
  | [] =>
      logger ERROR ("No packets found in " +:+ pcap_file);;
      logger ERROR "Ensure the file is a valid PCAP file (try opening it in Wireshark).";;
      sys_exit 1
  | _ :: _ => mret packets
  end.

(** [NetworkAnalyzer.extract_packet_data]; [pool.imap] yields the results in
    the order of the packets. *)
Definition extract_packet_data (packets : list Packet) : Py (DataFrame (Gen.t Z)) :=
  let results := map process_packet packets in
  let df := from_records Gen.keys (omap id results) in
  if empty df then
    logger ERROR "No valid IP packets found for analysis.";;
    sys_exit 1
  else mret df.

(** [NetworkAnalyzer.extract_security_data] *)
Definition extract_security_data (packets : list Packet) : Py (DataFrame Sec.t) :=
  let packet_data := omap security_record packets in
  let df_security := from_records Sec.keys packet_data in
  (if empty df_security
   then logger WARNING "No valid IP packets found for security analysis."
   else mret tt);;
  mret df_security.

(** [self.df["protocol"] = self.df["protocol"].astype(int).apply(self.protocol_name)] *)
Definition name_protocol (r : Gen.t Z) : Gen.t string :=
  {| Gen.src_ip := Gen.src_ip r; Gen.dst_ip := Gen.dst_ip r; Gen.protocol := protocol_name (Gen.protocol r);
     Gen.size := Gen.size r; Gen.time := Gen.time r; Gen.src_port := Gen.src_port r; Gen.dst_port := Gen.dst_port r;
     Gen.tcp_flags := Gen.tcp_flags r |}.

(** [NetworkAnalyzer.analyze_packet_data]: the frame with its protocols
    named, and the tables.  The order of the rows of a table is not kept. *)
Definition analyze_packet_data (df : DataFrame (Gen.t Z))
  : Py (DataFrame (Gen.t string) * Analysis) :=
  sizes ← getitem df "size" Gen.size;
  _ ← getitem df "protocol" Gen.protocol;
  let df := {| columns := columns df; records := map name_protocol (records df) |} in
  let total_bandwidth := foldr Z.add 0%Z sizes in
  protocol_frequency ← value_counts df "protocol" Gen.protocol;
  let protocol_counts :=
    (fun c => percent c (length (records df))) <$> protocol_frequency in
  let protocol_counts_df :=
    map_imap (fun k c => pair c <$> protocol_counts !! k) protocol_frequency in
  ip_communication ← groupby_size df ["src_ip"; "dst_ip"]
                       (fun r => (Gen.src_ip r, Gen.dst_ip r));
  let ip_communication_percentage :=
    (fun c => percent c (series_sum ip_communication)) <$> ip_communication in
  let ip_communication_table :=
    map_imap (fun k c => pair c <$> ip_communication_percentage !! k) ip_communication in
  counts ← groupby_size df ["src_ip"; "dst_ip"; "protocol"]
             (fun r => (Gen.src_ip r, Gen.dst_ip r, Gen.protocol r));
  let pair_sum :=
    sum_by (fun row : string * string * string * nat => (row.1.1.1, row.1.1.2)) snd
           (map_to_list counts) in
  let ip_communication_protocols :=
    map_imap (fun k c => Some (c, percent c (default 0 (pair_sum !! (k.1.1, k.1.2)))))
             counts in
  flow_counts ← groupby_size df ["src_ip"; "dst_ip"; "src_port"; "dst_port"; "protocol"]
                  (fun r => (Gen.src_ip r, Gen.dst_ip r, Gen.src_port r, Gen.dst_port r, Gen.protocol r));
  mret (df,
        {| total_bandwidth := total_bandwidth;
           protocol_counts_df := protocol_counts_df;
           ip_communication_table := ip_communication_table;
           protocol_frequency := protocol_frequency;
           ip_communication_protocols := ip_communication_protocols;
           flow_counts := flow_counts |}).

(** [NetworkAnalyzer.detect_port_scanning]: the rows of [potential_scanners],
    each source address with its [unique_ports]. *)
Definition detect_port_scanning (df_security : DataFrame Sec.t) : Py (gmap string nat) :=
  _ ← getitem df_security "protocol" Sec.protocol;
  _ ← getitem df_security "tcp_flags" Sec.tcp_flags;
  let syn_packets :=
    where_ df_security
      (fun r => (Sec.protocol r =? 6)%Z && contains_S (Sec.tcp_flags r)) in
  port_scan ← groupby_size syn_packets ["src_ip"; "dst_port"]
                (fun r => (Sec.src_ip r, Sec.dst_port r));
  let port_scan_df :=
    {| columns := ["src_ip"; "dst_port"; "count"]; records := map_to_list port_scan |} in
  unique_ports_per_ip ← groupby_size port_scan_df ["src_ip"]
                          (fun row : string * Z * nat => row.1.1);
  let potential_scanners :=
    filter (fun kv : string * nat => (port_scan_threshold <= Z.of_nat kv.2)%Z)
           unique_ports_per_ip in
  (if decide (potential_scanners = ∅) then mret tt
   else logger WARNING
          ("Potential port scanners in " +:+ pcap_file +:+ ": " +:+
           String.concat ", " (index_order (map fst (map_to_list potential_scanners)))));;
  mret potential_scanners.

(** [NetworkAnalyzer.detect_ddos]: the index of the flagged destinations, or
    the empty series when the time span is zero. *)
Definition detect_ddos (df_security : DataFrame Sec.t) (rate_threshold : Q)
  : Py (gset string) :=
  times ← getitem df_security "time" Sec.time;
  let time_span := series_span times in
  if span_is_zero time_span then mret ∅
  else
    sizes ← groupby_size df_security ["dst_ip"] Sec.dst_ip;
    let ddos_targets :=
      dom (filter (fun kv : string * nat =>
                     rate_exceeds time_span rate_threshold kv.2 = true) sizes) in
    (if decide (ddos_targets = ∅) then mret tt
     else logger WARNING
            ("Potential DDoS targets in " +:+ pcap_file +:+ ": " +:+
             String.concat ", " (index_order (elements ddos_targets))));;
    mret ddos_targets.

(** [NetworkAnalyzer.run], up to the call of [print_results]; the printed
    report, the CSV file and the charts are not modelled. *)
Definition run (capture : list Packet) : Py Report :=
  packets ← read_pcap capture;
  df ← extract_packet_data packets;
  df_security ← extract_security_data packets;
  '(_, tables) ← analyze_packet_data df;
  scanners ← detect_port_scanning df_security;
  targets ← detect_ddos df_security 1000;
  mret {| analysis := tables; potential_scanners := scanners; ddos_targets := targets |}.

End Analyzer.

(** ** Definitions used to state the properties *)

(** A sample TCP packet between two addresses. *)
Definition tcp_packet (s d : string) (port : Z) (fl : string) (t : Q) : Packet :=
  {| layer_IP := Some {| src := s; dst := d; proto := 6 |};
     layer_TCP := Some {| sport := 40000; dport := port; flags := fl |};
     layer_DNS := None; layer_ARP := None; pkt_len := 60; pkt_time := t |}.

(** A frame that carries no IP header. *)
Definition arp_packet : Packet :=
  {| layer_IP := None; layer_TCP := None; layer_DNS := None;
     layer_ARP := Some {| hwsrc := "00:11:22:33:44:55"; hwdst := "ff:ff:ff:ff:ff:ff";
                          op := 1 |};
     pkt_len := 42; pkt_time := 0 |}.




(** The rows of one group. *)
Definition group {R K : Type} `{Countable K} (key : R -> K) (k : K) (rows : list R)
  : list R :=
  filter (fun r => key r = k) rows.

(** [hi] is a greatest, [lo] a least element of [ts]. *)
Definition is_max (hi : Q) (ts : list Q) : Prop :=
  In hi ts /\ forall t, In t ts -> (t <= hi)%Q.

Definition is_min (lo : Q) (ts : list Q) : Prop :=
  In lo ts /\ forall t, In t ts -> (lo <= t)%Q.

(** The warning of a detector: nothing when nothing is flagged. *)
Definition warning_if_any (what pcap_file : string) (flagged : list string)
  : list (level * string) :=
  match flagged with
  | [] => []
  | _ :: _ => [(WARNING, what +:+ pcap_file +:+ ": " +:+ String.concat ", " flagged)]
  end.


(** A TCP SYN record: protocol number 6 and an S among the flags. *)
Definition is_syn (r : Sec.t) : bool :=
  (Sec.protocol r =? 6)%Z && contains_S (Sec.tcp_flags r).

(** The distinct destination ports of the SYN records of [source]. *)
Definition syn_ports (source : string) (rows : list Sec.t) : gset Z :=
  list_to_set
    (Sec.dst_port <$> filter (fun r => Sec.src_ip r = source) (List.filter is_syn rows)).

(** The tables, from the rows with their protocols named and the column of
    sizes. *)
Definition tables_of (named : list (Gen.t string)) (sizes : list Z) : Analysis :=
  let protocol_frequency := count_by id (map Gen.protocol named) in
  let protocol_counts :=
    (fun c => percent c (length named)) <$> protocol_frequency in
  let ip_communication := count_by (fun r => (Gen.src_ip r, Gen.dst_ip r)) named in
  let ip_communication_percentage :=
    (fun c => percent c (series_sum ip_communication)) <$> ip_communication in
  let counts := count_by (fun r => (Gen.src_ip r, Gen.dst_ip r, Gen.protocol r)) named in
  let pair_sum :=
    sum_by (fun row : string * string * string * nat => (row.1.1.1, row.1.1.2)) snd
           (map_to_list counts) in
  {| total_bandwidth := foldr Z.add 0%Z sizes;
     protocol_counts_df :=
       map_imap (fun k c => pair c <$> protocol_counts !! k) protocol_frequency;
     ip_communication_table :=
       map_imap (fun k c => pair c <$> ip_communication_percentage !! k) ip_communication;
     protocol_frequency := protocol_frequency;
     ip_communication_protocols :=
       map_imap (fun k c => Some (c, percent c (default 0 (pair_sum !! (k.1.1, k.1.2)))))
                counts;
     flow_counts :=
       count_by (fun r => (Gen.src_ip r, Gen.dst_ip r, Gen.src_port r, Gen.dst_port r,
                           Gen.protocol r)) named |}.

(** The sum of the counts of the groups whose key satisfies [P]. *)
Definition weight {K : Type} `{Countable K} (P : K -> Prop) `{forall k, Decision (P k)}
    (m : gmap K nat) : nat :=
  sum_list_with snd (filter (fun kc : K * nat => P kc.1) (map_to_list m)).

Definition Qsum (l : list Q) : Q := foldr Qplus 0%Q l.

(** The counts of the per-protocol host-pair table, its rows for the pair
    ([s], [d]), and the number of records of the pair. *)
Definition pair_counts (named : list (Gen.t string)) : gmap (string * string * string) nat :=
  count_by (fun r => (Gen.src_ip r, Gen.dst_ip r, Gen.protocol r)) named.

Definition in_pair (s d : string) (k : string * string * string) : Prop :=
  (k.1.1, k.1.2) = (s, d).

#[global] Instance in_pair_dec (s d : string) (k : string * string * string)
  : Decision (in_pair s d k) := decide ((k.1.1, k.1.2) = (s, d)).

Definition pair_rows (named : list (Gen.t string)) (s d : string)
  : list (string * string * string * nat) :=
  filter (fun kc : string * string * string * nat => in_pair s d kc.1)
         (map_to_list (pair_counts named)).

Definition pair_total (named : list (Gen.t string)) (s d : string) : nat :=
  length (filter (fun r : Gen.t string => Gen.src_ip r = s /\ Gen.dst_ip r = d) named).

(** Sample security records: [n] ports probed by [source], each twice. *)
Definition syn_record (source : string) (port : Z) (t : Q) : Sec.t :=
  {| Sec.src_ip := source; Sec.dst_ip := "10.0.0.2"; Sec.protocol := 6;
     Sec.dst_port := port; Sec.tcp_flags := "S"; Sec.time := t |}.

Definition probes (source : string) (n : nat) : list Sec.t :=
  flat_map (fun p => [syn_record source (Z.of_nat p) 0; syn_record source (Z.of_nat p) 0])
           (seq 1 n).

(** Sample general-traffic records. *)
Definition traffic_record (s d : string) (number : Z) : Gen.t Z :=
  {| Gen.src_ip := s; Gen.dst_ip := d; Gen.protocol := number; Gen.size := 60;
     Gen.time := 0; Gen.src_port := 40000; Gen.dst_port := 80; Gen.tcp_flags := "" |}.

(** ** The command line and the upload filter *)

(** [main], after [check_dependencies] and [parse_args]: one analyzer per
    file of [args.pcap_files], each file given with the packets its reader
    yields and analysed as far as [run] is modelled: the two output files are
    taken to be written without error.  The charts that [main] logs at INFO
    level are not kept. *)
Fixpoint main (port_scan_threshold : Z) (protocol_map : gmap Z string)
    (pcap_files : list (string * list Packet)) : Py unit :=
  match pcap_files with
  | [] => mret tt
  | (pcap_file, capture) :: rest =>
      _ ← run pcap_file port_scan_threshold protocol_map capture;
      main port_scan_threshold protocol_map rest
  end.

(** The first two statements of [print_results]:
    [bandwidth_unit = "Mbps" if total_bandwidth < 10**9 else "Gbps"] and
    [total_bandwidth /= 10**6 if bandwidth_unit == "Mbps" else 10**9]. *)
Definition bandwidth_unit (total_bandwidth : Z) : string :=
  if (total_bandwidth <? 10 ^ 9)%Z then "Mbps" else "Gbps".

Definition bandwidth_scaled (total_bandwidth : Z) : Q :=
  (inject_Z total_bandwidth /
   (if String.eqb (bandwidth_unit total_bandwidth) "Mbps"
    then inject_Z (10 ^ 6) else inject_Z (10 ^ 9)))%Q.

Module App.

(** [ALLOWED_EXTENSIONS = {'pcap', 'pcapng'}] *)
Definition ALLOWED_EXTENSIONS : list string := ["pcap"; "pcapng"].

(** [str.lower] on a character: the letters A-Z move to a-z.  A character
    outside the ASCII range is left as it is; none lower-cases to a letter of
    an allowed extension, so the test of [allowed_file] is not affected. *)
Definition lower_char (c : ascii) : ascii :=
  if in_range "A" "Z" c then ascii_of_N (N_of_ascii c + 32) else c.

(** The two sides of the last dot of [s], if it has a dot. *)
Fixpoint rpartition_dot (s : list ascii) : option (list ascii * list ascii) :=
  match s with
  | [] => None
  | c :: t =>
      match rpartition_dot t with
      | Some (a, b) => Some (c :: a, b)
      | None => if Ascii.eqb c "." then Some ([], t) else None
      end
  end.

(** [s.rsplit('.', 1)] *)
Definition rsplit_dot_1 (s : list ascii) : list (list ascii) :=
  match rpartition_dot s with
  | Some (a, b) => [a; b]
  | None => [s]
  end.

(** [allowed_file]:
    ['.' in filename and filename.rsplit('.', 1)[1].lower() in ALLOWED_EXTENSIONS].
    The index [1] is only evaluated when the name has a dot. *)
Definition allowed_file (filename : string) : bool :=
  let s := list_ascii_of_string filename in
  existsb (Ascii.eqb ".") s &&
  match nth_error (rsplit_dot_1 s) 1 with
  | Some ext =>
      existsb (String.eqb (string_of_list_ascii (map lower_char ext))) ALLOWED_EXTENSIONS
  | None => false
  end.

End App.

(** ** Further definitions used to state properties *)

(** The columns a general-traffic row shares with a security row. *)
Definition to_security (r : Gen.t Z) : Sec.t :=
  {| Sec.src_ip := Gen.src_ip r; Sec.dst_ip := Gen.dst_ip r;
     Sec.protocol := Gen.protocol r; Sec.dst_port := Gen.dst_port r;
     Sec.tcp_flags := Gen.tcp_flags r; Sec.time := Gen.time r |}.

(** The packet passes the filter of the two extraction paths. *)
Definition accepted (packet : Packet) : bool :=
  match process_packet packet with Some _ => true | None => false end.

(** The ARP row of an ARP layer. *)
Definition arp_row (arp : ARP) : Arp.t :=
  {| Arp.src_mac := hwsrc arp; Arp.dst_mac := hwdst arp; Arp.op := op arp |}.

(** The security record moved by [delta] seconds. *)
Definition shift_time (delta : Q) (r : Sec.t) : Sec.t :=
  {| Sec.src_ip := Sec.src_ip r; Sec.dst_ip := Sec.dst_ip r;
     Sec.protocol := Sec.protocol r; Sec.dst_port := Sec.dst_port r;
     Sec.tcp_flags := Sec.tcp_flags r; Sec.time := (Sec.time r + delta)%Q |}.


(** ** The upload handler of [app.py] *)

(** [str(e)] *)
Definition str_exn (e : exn) : string :=
  match e with
  | KeyError key => "'" +:+ key +:+ "'"
  | IndexError msg => msg
  | SystemExit status => pretty status
  end.

(** [try: body / except Exception as e: handler]: [SystemExit] is not an
    [Exception] and passes through. *)
Definition try_except_Exception {A : Type} (body : Py A) (handler : exn -> Py A) : Py A :=
  fun log =>
    match body log with
    | (Raised (KeyError key), log') => handler (KeyError key) log'
    | (Raised (IndexError msg), log') => handler (IndexError msg) log'
    | result => result
    end.

(** [jsonify({"error": message}), status] and [jsonify(response_data), 200] *)
Inductive response (A : Type) : Type :=
| reply_error (message : string) (status : Z)
| reply_ok (response_data : A) (status : Z).
Arguments reply_error {A} message status.
Arguments reply_ok {A} response_data status.

Section Upload.

(** [protocol_map] is what [load_protocol_map] gives the analyzer and
    [filepath] the path the upload is saved at.  [rest_of_try] is the code of
    the [try] block that follows the detectors: the report, the two output
    files and the reading back of the CSV file. *)
Variable protocol_map : gmap Z string.
Variable filepath : string.
Variable A : Type.
Variable rest_of_try : Report -> Py A.

(** [analyze_pcap], the request given as the [pcap_file] part if it has one:
    the file name and the packets the reader yields from the saved upload.
    The analyzer is built with its default [port_scan_threshold=100].  The
    [finally] clause removes files and changes no outcome. *)
Definition analyze_pcap (pcap_file : option (string * list Packet)) : Py (response A) :=
  match pcap_file with
  | None =>
      logger WARNING "No 'pcap_file' part in the request.";;
      mret (reply_error "No PCAP file provided" 400)
  | Some (filename, capture) =>
      if String.eqb filename "" then
        logger WARNING "No selected file.";;
        mret (reply_error "No file selected" 400)
      else if negb (App.allowed_file filename) then
        logger WARNING ("Invalid file type for " +:+ filename);;
        mret (reply_error "Only .pcap or .pcapng files are allowed" 400)
      else
        try_except_Exception
          (report ← run filepath 100 protocol_map capture;
           response_data ← rest_of_try report;
           mret (reply_ok response_data 200))
          (fun e =>
             logger ERROR ("Error during PCAP analysis: " +:+ str_exn e);;
             mret (reply_error ("Analysis failed: " +:+ str_exn e) 500))
  end.

End Upload.

(** The computation leaves the records already in the log in place and
    behaves the same whatever they are. *)
Definition appends {A : Type} (m : Py A) : Prop :=
  forall log, m log = ((m []).1, log ++ (m []).2).

(** Some packet of the capture passes the address filter. *)
Definition has_traffic (capture : list Packet) : Prop :=
  Exists (fun p => accepted p = true) capture.

(** * Properties *)

(** ** The matcher and the language of a pattern *)

Lemma iterate_spec (f : list ascii -> list (list ascii)) (L : list ascii -> Prop) :
  (forall s rest, In rest (f s) <-> exists w, s = w ++ rest /\ L w) ->
  forall n s rest, In rest (iterate n f s) <-> exists w, s = w ++ rest /\ power n L w.
Proof.
  intros Hf n. induction n as [|n IH]; intros s rest; simpl.
  - split.
    + intros [->|[]]. exists []. auto.
    + intros (w & -> & ->). now left.
  - rewrite in_flat_map. split.
    + intros (mid & Hmid & Hrest).
      apply Hf in Hmid as (u & -> & Hu).
      apply IH in Hrest as (v & -> & Hv).
      exists (u ++ v). split; [now rewrite <- app_assoc|]. eauto.
    + intros (w & -> & u & v & -> & Hu & Hv).
      exists (v ++ rest). split.
      * apply Hf. exists u. split; [now rewrite <- app_assoc|done].
      * apply IH. eauto.
Qed.

Lemma run_spec r : forall s rest,
  In rest (Re.run r s) <-> exists w, s = w ++ rest /\ lang r w.
Proof.
  induction r as [c|lo hi|cs|a IHa b IHb|a IHa b IHb|a IHa|n a IHa]; intros s rest; simpl.
  - destruct s as [|x t]; simpl.
    + split; [intros []|]. intros (w & Hw & ->). discriminate.
    + destruct (Ascii.eqb_spec x c) as [->|Hne]; simpl.
      * split.
        -- intros [->|[]]. exists [c]. auto.
        -- intros (w & Hw & ->). simpl in Hw. injection Hw as ->. now left.
      * split; [intros []|]. intros (w & Hw & ->). simpl in Hw. congruence.
  - destruct s as [|x t]; simpl.
    + split; [intros []|]. intros (w & Hw & c & -> & _). discriminate.
    + destruct (in_range lo hi x) eqn:E; simpl.
      * split.
        -- intros [->|[]]. exists [x]. eauto.
        -- intros (w & Hw & c & -> & _). simpl in Hw. injection Hw as _ ->. now left.
      * split; [intros []|]. intros (w & Hw & c & -> & Hc). simpl in Hw.
        injection Hw as -> _. congruence.
  - destruct s as [|x t]; simpl.
    + split; [intros []|]. intros (w & Hw & c & -> & _). discriminate.
    + destruct (existsb (Ascii.eqb x) cs) eqn:E; simpl.
      * split.
        -- intros [->|[]]. exists [x]. eauto.
        -- intros (w & Hw & c & -> & _). simpl in Hw. injection Hw as _ ->. now left.
      * split; [intros []|]. intros (w & Hw & c & -> & Hc). simpl in Hw.
        injection Hw as -> _. congruence.
  - rewrite in_flat_map. split.
    + intros (mid & Hmid & Hrest).
      apply IHa in Hmid as (u & -> & Hu).
      apply IHb in Hrest as (v & -> & Hv).
      exists (u ++ v). split; [now rewrite <- app_assoc|]. eauto.
    + intros (w & -> & u & v & -> & Hu & Hv).
      exists (v ++ rest). split.
      * apply IHa. exists u. split; [now rewrite <- app_assoc|done].
      * apply IHb. eauto.
  - rewrite in_app_iff, IHa, IHb. split.
    + intros [(w & ? & ?)|(w & ? & ?)]; eauto.
    + intros (w & ? & [?|?]); eauto.
  - rewrite in_app_iff, IHa. simpl. split.
    + intros [(w & ? & ?) | [-> | []]]; eauto. exists []. auto.
    + intros (w & Hw & [? | ->]); eauto.
  - apply iterate_spec. exact IHa.
Qed.

Lemma in_range_spec lo hi c :
  in_range lo hi c = true <->
  (N_of_ascii lo <= N_of_ascii c /\ N_of_ascii c <= N_of_ascii hi)%N.
Proof.
  unfold in_range. rewrite andb_true_iff, !N.leb_le. tauto.
Qed.

Lemma ascii_of_code c n : N_of_ascii c = n -> c = ascii_of_N n.
Proof. intros <-. symmetry. apply ascii_N_embedding. Qed.

Lemma is_octet_spec w :
  is_octet w = true <->
  match w with
  | [a] => (48 <= code a <= 57)%N
  | [a; b] => (48 <= code a <= 57)%N /\ (48 <= code b <= 57)%N
  | [a; b; c] =>
      (48 <= code a <= 57)%N /\ (48 <= code b <= 57)%N /\ (48 <= code c <= 57)%N /\
      (100 * (code a - 48) + 10 * (code b - 48) + (code c - 48) <= 255)%N
  | _ => False
  end.
Proof.
  unfold is_octet, decimal, is_digit, digit_val, code.
  destruct w as [|a [|b [|c [|d w]]]]; simpl;
    rewrite ?andb_true_iff, ?in_range_spec, ?N.leb_le; simpl N_of_ascii.
  - intuition discriminate.
  - split; [intros; lia|]. intros; repeat split; try lia.
  - split; [intros; lia|]. intros; repeat split; try lia.
  - split; [intros; lia|]. intros; repeat split; try lia.
  - intuition discriminate.
Qed.

Lemma octet_lang w : lang octet w <-> is_octet w = true.
Proof.
  rewrite is_octet_spec. unfold octet. simpl. split.
  - intros H.
    repeat match goal with
    | H : _ \/ _ |- _ => destruct H
    | H : exists _, _ |- _ => destruct H
    | H : _ /\ _ |- _ => destruct H
    | H : in_range _ _ _ = true |- _ => apply in_range_spec in H; simpl N_of_ascii in H
    | H : (_ || _)%bool = true |- _ => apply orb_true_iff in H
    | H : Ascii.eqb _ _ = true |- _ => apply Ascii.eqb_eq in H
    | H : false = true |- _ => discriminate H
    end; subst; simpl; unfold code; simpl N_of_ascii; lia.
  - destruct w as [|a [|b [|c [|d w]]]]; try tauto; unfold code.
    + intros Ha. right. right. exists [], [a]. split; [done|]. split; [now right|].
      exists [a], []. split; [done|]. split; [|now right].
      exists a. split; [done|]. apply in_range_spec. simpl. lia.
    + intros [Ha Hb]. right. right. exists [], [a; b]. split; [done|]. split; [now right|].
      exists [a], [b]. split; [done|]. split.
      * exists a. split; [done|]. apply in_range_spec. simpl. lia.
      * left. exists b. split; [done|]. apply in_range_spec. simpl. lia.
    + intros (Ha & Hb & Hc & Hv).
      destruct (N.eq_dec (N_of_ascii a) 50%N) as [Ea|Na].
      * apply ascii_of_code in Ea as ->. simpl N_of_ascii in *.
        destruct (N.eq_dec (N_of_ascii b) 53%N) as [Eb|Nb].
        -- apply ascii_of_code in Eb as ->. simpl N_of_ascii in *.
           left. exists ["2"%char], ["5"%char; c]. split; [done|]. split; [done|].
           exists ["5"%char], [c]. split; [done|]. split; [done|].
           exists c. split; [done|]. apply in_range_spec. simpl. lia.
        -- right. left. exists ["2"%char], [b; c]. split; [done|]. split; [done|].
           exists [b], [c]. split; [done|]. split.
           ++ exists b. split; [done|]. apply in_range_spec. simpl. lia.
           ++ exists c. split; [done|]. apply in_range_spec. simpl. lia.
      * right. right. exists [a], [b; c]. split; [done|]. split.
        -- left. exists a. split; [done|]. simpl.
           assert (N_of_ascii a = 48 \/ N_of_ascii a = 49)%N as [E|E] by lia;
             apply ascii_of_code in E as ->; reflexivity.
        -- exists [b], [c]. split; [done|]. split.
           ++ exists b. split; [done|]. apply in_range_spec. simpl. lia.
           ++ left. exists c. split; [done|]. apply in_range_spec. simpl. lia.
Qed.

Lemma split_dot_not_nil w : split_dot w <> [].
Proof.
  destruct w as [|c t]; simpl; [done|].
  destruct (Ascii.eqb c "."); [done|]. now destruct (split_dot t).
Qed.

Lemma join_split_dot w : join_dot (split_dot w) = w.
Proof.
  induction w as [|c t IH]; simpl; [done|].
  destruct (Ascii.eqb_spec c ".") as [->|Hne].
  - pose proof (split_dot_not_nil t) as Hn.
    simpl. destruct (split_dot t) eqn:E; [done|]. simpl in *. now rewrite IH.
  - pose proof (split_dot_not_nil t) as Hn.
    destruct (split_dot t) as [|h r] eqn:E; [done|].
    simpl in *. destruct r; simpl in *; now rewrite <- IH.
Qed.

Lemma split_dot_no_dot a : no_dot a -> split_dot a = [a].
Proof.
  unfold no_dot. induction a as [|c t IH]; simpl; [done|]. intros Hn.
  destruct (Ascii.eqb_spec c ".") as [->|Hne]; [tauto|].
  rewrite IH; [done|tauto].
Qed.

Lemma split_dot_app a rest :
  no_dot a -> split_dot (a ++ "."%char :: rest) = a :: split_dot rest.
Proof.
  unfold no_dot. induction a as [|c t IH]; simpl; [done|]. intros Hn.
  destruct (Ascii.eqb_spec c ".") as [->|Hne]; [tauto|].
  rewrite IH; [done|tauto].
Qed.

Lemma split_dot_parts w : Forall no_dot (split_dot w).
Proof.
  induction w as [|c t IH]; simpl.
  - repeat constructor. intros [].
  - destruct (Ascii.eqb_spec c ".") as [->|Hne].
    + constructor; [intros []|done].
    + destruct (split_dot t) as [|h r]; [repeat constructor; intros [?|[]]; congruence|].
      inversion IH; subst. constructor; [|done].
      unfold no_dot in *. intros [?|?]; [congruence|tauto].
Qed.

Lemma is_octet_no_dot a : is_octet a = true -> no_dot a.
Proof.
  intros H%is_octet_spec Hin. unfold code in H.
  destruct a as [|x [|y [|z [|? ?]]]]; try done; simpl in Hin;
    repeat match goal with
    | H : _ \/ _ |- _ => destruct H
    | H : False |- _ => destruct H
    end; subst; simpl N_of_ascii in *; lia.
Qed.

Lemma pattern_lang w :
  lang pattern w <->
  exists a b c d,
    w = join_dot [a; b; c; d] /\
    is_octet a = true /\ is_octet b = true /\ is_octet c = true /\ is_octet d = true.
Proof.
  unfold pattern. simpl. split.
  - intros (u & d & -> & (u1 & v1 & -> & (a & ? & -> & Ha & ->) &
                          u2 & v2 & -> & (b & ? & -> & Hb & ->) &
                          u3 & v3 & -> & (c & ? & -> & Hc & ->) & ->) & Hd).
    apply octet_lang in Ha, Hb, Hc, Hd.
    exists a, b, c, d. repeat split; try done.
    simpl. rewrite app_nil_r. now repeat (rewrite <- app_assoc; simpl).
  - intros (a & b & c & d & -> & Ha & Hb & Hc & Hd).
    apply octet_lang in Ha, Hb, Hc, Hd.
    exists (a ++ ["."%char] ++ b ++ ["."%char] ++ c ++ ["."%char]), d.
    split; [now rewrite <- !app_assoc|]. split; [|done].
    exists (a ++ ["."%char]), (b ++ ["."%char] ++ c ++ ["."%char]).
    split; [now rewrite <- !app_assoc|]. split; [exists a, ["."%char]; done|].
    exists (b ++ ["."%char]), (c ++ ["."%char]).
    split; [now rewrite <- !app_assoc|]. split; [exists b, ["."%char]; done|].
    exists (c ++ ["."%char]), [].
    split; [now rewrite app_nil_r|]. split; [exists c, ["."%char]; done|done].
Qed.

Lemma quad_lang w : quad w = true <-> lang pattern w.
Proof.
  rewrite pattern_lang. unfold quad. split.
  - pose proof (join_split_dot w) as Hj.
    destruct (split_dot w) as [|a [|b [|c [|d [|? ?]]]]]; try done.
    rewrite !andb_true_iff. intros [[[Ha Hb] Hc] Hd].
    exists a, b, c, d. auto.
  - intros (a & b & c & d & -> & Ha & Hb & Hc & Hd). simpl.
    rewrite !split_dot_app, split_dot_no_dot by auto using is_octet_no_dot.
    now rewrite Ha, Hb, Hc, Hd.
Qed.

Lemma at_dollar_spec rest : at_dollar rest = true <-> rest = [] \/ rest = [line_feed].
Proof.
  destruct rest as [|c [|? ?]]; simpl.
  - intuition.
  - rewrite Ascii.eqb_eq. unfold line_feed. intuition congruence.
  - intuition discriminate.
Qed.

Lemma match_anchored_spec r s :
  match_anchored r s = true <->
  lang r (list_ascii_of_string s) \/
  exists w, list_ascii_of_string s = w ++ [line_feed] /\ lang r w.
Proof.
  unfold match_anchored. rewrite existsb_exists. split.
  - intros (rest & Hin & Hd). apply run_spec in Hin as (w & Hs & Hw).
    apply at_dollar_spec in Hd as [-> | ->].
    + left. now rewrite Hs, app_nil_r.
    + right. eauto.
  - intros [Hw | (w & Hs & Hw)].
    + exists []. split; [|done]. apply run_spec. exists (list_ascii_of_string s).
      now rewrite app_nil_r.
    + exists [line_feed]. split; [|done]. apply run_spec. eauto.
Qed.

(** ** [is_valid_ip] against the dotted quads *)

Lemma dotted_quad_lang s : dotted_quad s = true <-> lang pattern (list_ascii_of_string s).
Proof. apply quad_lang. Qed.

Lemma last_snoc_lf (w : list ascii) s :
  list_ascii_of_string s = w ++ [line_feed] -> ends_with_lf s = true.
Proof.
  intros E. unfold ends_with_lf. rewrite E, last_snoc. apply Ascii.eqb_refl.
Qed.

Lemma dotted_quad_matches s : dotted_quad s = true -> match_anchored pattern s = true.
Proof. intros H. apply match_anchored_spec. left. now apply dotted_quad_lang. Qed.

Lemma match_anchored_no_lf s :
  ends_with_lf s = false -> match_anchored pattern s = dotted_quad s.
Proof.
  intros Hlf. apply eq_true_iff_eq.
  rewrite match_anchored_spec, dotted_quad_lang. split; [|tauto].
  intros [H | (w & E & _)]; [done|].
  apply last_snoc_lf in E. congruence.
Qed.

Lemma is_valid_ip_dotted_quad ip :
  dotted_quad ip = true -> is_valid_ip ip = negb (String.prefix "0." ip).
Proof. intros H. unfold is_valid_ip. now rewrite dotted_quad_matches. Qed.

Lemma is_valid_ip_no_lf ip :
  ends_with_lf ip = false ->
  is_valid_ip ip = dotted_quad ip && negb (String.prefix "0." ip).
Proof. intros H. unfold is_valid_ip. now rewrite match_anchored_no_lf. Qed.

Lemma is_valid_ip_leading_zero ip : String.prefix "0." ip = true -> is_valid_ip ip = false.
Proof. intros H. unfold is_valid_ip. rewrite H. apply andb_false_r. Qed.

(** Both extraction paths apply the same test to a packet. *)
Lemma process_packet_Some packet :
  is_Some (process_packet packet) <->
  exists ip, layer_IP packet = Some ip /\
             is_valid_ip (src ip) && is_valid_ip (dst ip) = true.
Proof.
  unfold process_packet. destruct (layer_IP packet) as [ip|].
  - destruct (is_valid_ip (src ip) && is_valid_ip (dst ip)) eqn:E.
    + split; [eauto|]. intros _. eauto.
    + split; [intros [? ?]; discriminate|]. intros (? & [= <-] & ?). congruence.
  - split; [intros [? ?]; discriminate|]. intros (? & ? & _). discriminate.
Qed.

Lemma security_record_Some packet :
  is_Some (security_record packet) <->
  exists ip, layer_IP packet = Some ip /\
             is_valid_ip (src ip) && is_valid_ip (dst ip) = true.
Proof.
  unfold security_record. destruct (layer_IP packet) as [ip|].
  - destruct (is_valid_ip (src ip) && is_valid_ip (dst ip)) eqn:E.
    + split; [eauto|]. intros _. eauto.
    + split; [intros [? ?]; discriminate|]. intros (? & [= <-] & ?). congruence.
  - split; [intros [? ?]; discriminate|]. intros (? & ? & _). discriminate.
Qed.

Lemma extraction_accepts packet ip :
  layer_IP packet = Some ip ->
  is_valid_ip (src ip) && is_valid_ip (dst ip) = true ->
  is_Some (process_packet packet) /\ is_Some (security_record packet).
Proof.
  intros Hip Hv. split; [apply process_packet_Some|apply security_record_Some]; eauto.
Qed.

Lemma extraction_drops packet ip :
  layer_IP packet = Some ip ->
  is_valid_ip (src ip) && is_valid_ip (dst ip) = false ->
  process_packet packet = None /\ security_record packet = None.
Proof.
  intros Hip Hv. unfold process_packet, security_record. now rewrite Hip, Hv.
Qed.

(** C1, as the claim words it, fails: the source is a dotted quad that does
    not begin with octet 0 and the destination is a dotted quad, yet the
    packet is dropped from both outputs, the destination beginning with [0.]. *)
Lemma C1_counterexample :
  let packet := tcp_packet "1.2.3.4" "0.1.2.3" 80 "S" 0 in
  dotted_quad "1.2.3.4" = true /\ dotted_quad "0.1.2.3" = true /\
  String.prefix "0." "1.2.3.4" = false /\
  process_packet packet = None /\ security_record packet = None.
Proof. repeat split; reflexivity. Qed.

(** C1, amended: a packet with an IP header whose addresses do not end in a
    line feed is accepted into both the general-traffic and the security
    output when source and destination are both dotted quads (four octets of
    one to three digits, each 0-255) and neither begins with [0.]; otherwise it
    is dropped from both. *)
Theorem C1_filter_on_both_addresses (packet : Packet) (ip : IP) :
  layer_IP packet = Some ip ->
  ends_with_lf (src ip) = false ->
  ends_with_lf (dst ip) = false ->
  let ok := dotted_quad (src ip) && negb (String.prefix "0." (src ip)) &&
            (dotted_quad (dst ip) && negb (String.prefix "0." (dst ip))) in
  (ok = true -> is_Some (process_packet packet) /\ is_Some (security_record packet)) /\
  (ok = false -> process_packet packet = None /\ security_record packet = None).
Proof.
  intros Hip Hs Hd ok. subst ok.
  rewrite <- (is_valid_ip_no_lf _ Hs), <- (is_valid_ip_no_lf _ Hd).
  split; intros H; [eapply extraction_accepts|eapply extraction_drops]; eauto.
Qed.

Lemma C1_filter_on_both_addresses_witness :
  let packet := tcp_packet "192.168.1.10" "10.0.0.255" 443 "S" 0 in
  is_Some (process_packet packet) /\ is_Some (security_record packet).
Proof.
  intros packet.
  refine (proj1 (C1_filter_on_both_addresses packet
                   {| src := "192.168.1.10"; dst := "10.0.0.255"; proto := 6 |}
                   _ _ _) _); reflexivity.
Defined.

(** C9: a packet whose destination address begins with [0.] is dropped by
    the general-traffic path and by the security path, whatever its source
    address. *)
Theorem C9_destination_leading_zero (packet : Packet) (ip : IP) :
  layer_IP packet = Some ip ->
  String.prefix "0." (dst ip) = true ->
  process_packet packet = None /\ security_record packet = None.
Proof.
  intros Hip Hz. apply (extraction_drops packet ip Hip).
  rewrite (is_valid_ip_leading_zero _ Hz). apply andb_false_r.
Qed.

Lemma C9_destination_leading_zero_witness :
  let packet := tcp_packet "192.168.1.10" "0.10.20.30" 443 "S" 0 in
  is_valid_ip "192.168.1.10" = true /\
  process_packet packet = None /\ security_record packet = None.
Proof.
  intros packet. split; [reflexivity|].
  apply (C9_destination_leading_zero packet
           {| src := "192.168.1.10"; dst := "0.10.20.30"; proto := 6 |});
    reflexivity.
Defined.

(** C10: on dotted quads, [is_valid_ip] rejects exactly the addresses that
    begin with [0.]; leading zero digits elsewhere, or a first octet such as
    [00], do not reject, and a packet with such addresses is accepted into
    both outputs. *)
Theorem C10_only_first_octet_zero (packet : Packet) (ip : IP) :
  layer_IP packet = Some ip ->
  dotted_quad (src ip) = true ->
  dotted_quad (dst ip) = true ->
  (is_valid_ip (src ip) = false <-> String.prefix "0." (src ip) = true) /\
  (is_valid_ip (dst ip) = false <-> String.prefix "0." (dst ip) = true) /\
  (String.prefix "0." (src ip) = false -> String.prefix "0." (dst ip) = false ->
   is_Some (process_packet packet) /\ is_Some (security_record packet)).
Proof.
  intros Hip Hs Hd.
  rewrite (is_valid_ip_dotted_quad _ Hs), (is_valid_ip_dotted_quad _ Hd).
  repeat split; try (destruct (String.prefix "0." _); simpl; congruence).
  - apply process_packet_Some. exists ip. split; [done|].
    rewrite (is_valid_ip_dotted_quad _ Hs), (is_valid_ip_dotted_quad _ Hd), H, H0. done.
  - apply security_record_Some. exists ip. split; [done|].
    rewrite (is_valid_ip_dotted_quad _ Hs), (is_valid_ip_dotted_quad _ Hd), H, H0. done.
Qed.

Lemma C10_only_first_octet_zero_witness :
  let packet := tcp_packet "1.01.2.3" "1.2.3.007" 80 "S" 0 in
  is_valid_ip "1.01.2.3" = true /\ is_valid_ip "1.2.3.007" = true /\
  is_Some (process_packet packet) /\ is_Some (security_record packet).
Proof.
  intros packet.
  pose proof (C10_only_first_octet_zero packet
                {| src := "1.01.2.3"; dst := "1.2.3.007"; proto := 6 |}
                eq_refl eq_refl eq_refl) as (_ & _ & H).
  split; [reflexivity|]. split; [reflexivity|]. apply H; reflexivity.
Defined.

(** ** Running computations *)

Lemma bind_returned {A B} (m : Py A) (f : A -> Py B) log a log' :
  m log = (Returned a, log') -> (m ≫= f) log = f a log'.
Proof. intros E. unfold mbind, Py_bind. now rewrite E. Qed.

Lemma bind_raised {A B} (m : Py A) (f : A -> Py B) log e log' :
  m log = (Raised e, log') -> (m ≫= f) log = (Raised e, log').
Proof. intros E. unfold mbind, Py_bind. now rewrite E. Qed.

Lemma omap_all_None {A B} (f : A -> option B) (l : list A) :
  Forall (fun x => f x = None) l -> omap f l = [].
Proof. induction 1 as [|x l Hx _ IH]; simpl; [done|]. now rewrite Hx. Qed.

Lemma omap_id_map {A B} (f : A -> option B) (l : list A) :
  omap id (map f l) = omap f l.
Proof.
  induction l as [|x l IH]; [done|].
  cbn. destruct (f x); cbn; now rewrite <- IH.
Qed.

Section Pipeline.

Variable pcap_file : string.
Variable port_scan_threshold : Z.
Variable protocol_map : gmap Z string.

Lemma run_no_packets :
  call (run pcap_file port_scan_threshold protocol_map []) =
  (Raised (SystemExit 1),
   [(ERROR, "No packets found in " +:+ pcap_file);
    (ERROR, "Ensure the file is a valid PCAP file (try opening it in Wireshark).")]).
Proof. reflexivity. Qed.

Lemma extract_packet_data_no_traffic (packets : list Packet) :
  Forall (fun p => process_packet p = None) packets ->
  call (extract_packet_data packets) =
  (Raised (SystemExit 1), [(ERROR, "No valid IP packets found for analysis.")]).
Proof.
  intros H. unfold call, extract_packet_data. cbv zeta.
  rewrite omap_id_map, (omap_all_None _ _ H). reflexivity.
Qed.

Lemma run_no_traffic (capture : list Packet) :
  capture <> [] ->
  Forall (fun p => process_packet p = None) capture ->
  call (run pcap_file port_scan_threshold protocol_map capture) =
  (Raised (SystemExit 1), [(ERROR, "No valid IP packets found for analysis.")]).
Proof.
  intros Hne H. unfold call, run.
  destruct capture as [|p rest]; [done|].
  erewrite bind_returned by reflexivity.
  erewrite bind_raised; [reflexivity|].
  apply (extract_packet_data_no_traffic _ H).
Qed.

End Pipeline.



(** C5 fails on the code: with no security record, [df_security] is
    [pd.DataFrame([])], a frame without columns, and both heuristics raise
    [KeyError] on their first column access instead of returning an empty
    result. *)
Theorem C5_empty_security_frame_raises (pcap_file : string) (port_scan_threshold : Z)
    (rate_threshold : Q) :
  call (extract_security_data []) =
    (Returned (from_records Sec.keys []),
     [(WARNING, "No valid IP packets found for security analysis.")]) /\
  call (extract_security_data [arp_packet]) =
    (Returned (from_records Sec.keys []),
     [(WARNING, "No valid IP packets found for security analysis.")]) /\
  call (detect_port_scanning pcap_file port_scan_threshold (from_records Sec.keys [])) =
    (Raised (KeyError "protocol"), []) /\
  call (detect_ddos pcap_file (from_records Sec.keys []) rate_threshold) =
    (Raised (KeyError "time"), []).
Proof. repeat split; reflexivity. Qed.

(** ** DNS records *)






(** ** Grouping *)

Section Grouping.

Context {R K : Type} `{Countable K}.
Implicit Types (key : R -> K) (val : R -> nat) (rows : list R).

Lemma sum_by_lookup key val rows k :
  sum_by key val rows !! k =
  match group key k rows with
  | [] => None
  | g => Some (sum_list_with val g)
  end.
Proof.
  unfold group. induction rows as [|r rows IH]; [done|].
  cbn [sum_by foldr]. fold (sum_by key val rows).
  rewrite lookup_insert, filter_cons.
  destruct (decide (key r = k)) as [->|Hne].
  - rewrite IH. destruct (filter _ rows); cbn; f_equal; lia.
  - exact IH.
Qed.

Lemma count_by_lookup key rows k :
  count_by key rows !! k =
  match group key k rows with
  | [] => None
  | g => Some (length g)
  end.
Proof.
  unfold count_by. rewrite sum_by_lookup.
  assert (forall l : list R, sum_list_with (fun _ => 1) l = length l) as Hlen
    by (intros l; induction l; cbn; lia).
  destruct (group key k rows) as [|r g]; [done|]. now rewrite Hlen.
Qed.

Lemma count_by_is_Some key rows k :
  is_Some (count_by key rows !! k) <-> exists r, r ∈ rows /\ key r = k.
Proof.
  rewrite count_by_lookup. unfold group.
  destruct (filter _ rows) as [|r g] eqn:E.
  - split; [intros [? ?]; discriminate|]. intros (r & Hr & Hk).
    assert (r ∈ filter (fun r => key r = k) rows) as Hin by (apply list_elem_of_filter; done).
    rewrite E in Hin. inversion Hin.
  - split; [|eauto]. intros _.
    assert (r ∈ filter (fun r => key r = k) rows) as Hin by (rewrite E; left).
    apply list_elem_of_filter in Hin. exists r. tauto.
Qed.

Lemma count_by_positive key rows k n : count_by key rows !! k = Some n -> 0 < n.
Proof.
  rewrite count_by_lookup. destruct (group key k rows); [done|].
  intros [= <-]. cbn. lia.
Qed.

Lemma sum_by_permutation key val rows rows' :
  rows ≡ₚ rows' -> sum_by key val rows = sum_by key val rows'.
Proof.
  intros Hp. apply map_eq. intros k. rewrite !sum_by_lookup. unfold group.
  assert (filter (fun r => key r = k) rows ≡ₚ filter (fun r => key r = k) rows') as Hf
    by now rewrite Hp.
  destruct (filter _ rows) as [|a l], (filter _ rows') as [|a' l'].
  - done.
  - apply Permutation_nil_l in Hf. discriminate.
  - apply Permutation_nil_r in Hf. discriminate.
  - f_equal. now rewrite Hf.
Qed.

Lemma count_by_permutation key rows rows' :
  rows ≡ₚ rows' -> count_by key rows = count_by key rows'.
Proof. apply sum_by_permutation. Qed.

End Grouping.

(** ** Maximum and minimum of a series *)

Lemma Qmax_cases x y : Qmax x y = x \/ Qmax x y = y.
Proof. unfold Qmax, GenericMinMax.gmax. destruct (x ?= y)%Q; auto. Qed.

Lemma Qmin_cases x y : Qmin x y = x \/ Qmin x y = y.
Proof. unfold Qmin, GenericMinMax.gmin. destruct (x ?= y)%Q; auto. Qed.

Lemma fold_Qmax_is_max l : forall t, is_max (fold_left Qmax l t) (t :: l).
Proof.
  induction l as [|x l IH]; intros t; cbn [fold_left].
  - split; [now left|]. intros ? [<-|[]]. apply Qle_refl.
  - destruct (IH (Qmax t x)) as [Hin Hub]. split.
    + destruct Hin as [Hin|Hin]; [|right; now right].
      rewrite <- Hin. destruct (Qmax_cases t x) as [-> | ->]; [now left|right; now left].
    + intros u [<-|[<-|Hu]].
      * eapply Qle_trans; [apply Q.le_max_l|]. apply Hub. now left.
      * eapply Qle_trans; [apply Q.le_max_r|]. apply Hub. now left.
      * apply Hub. now right.
Qed.

Lemma fold_Qmin_is_min l : forall t, is_min (fold_left Qmin l t) (t :: l).
Proof.
  induction l as [|x l IH]; intros t; cbn [fold_left].
  - split; [now left|]. intros ? [<-|[]]. apply Qle_refl.
  - destruct (IH (Qmin t x)) as [Hin Hlb]. split.
    + destruct Hin as [Hin|Hin]; [|right; now right].
      rewrite <- Hin. destruct (Qmin_cases t x) as [-> | ->]; [now left|right; now left].
    + intros u [<-|[<-|Hu]].
      * eapply Qle_trans; [|apply Q.le_min_l]. apply Hlb. now left.
      * eapply Qle_trans; [|apply Q.le_min_r]. apply Hlb. now left.
      * apply Hlb. now right.
Qed.

Lemma is_max_unique hi hi' ts ts' :
  (forall t, In t ts <-> In t ts') -> is_max hi ts -> is_max hi' ts' -> (hi == hi')%Q.
Proof.
  intros E [Hin Hub] [Hin' Hub']. apply Qle_antisym.
  - apply Hub'. now apply E.
  - apply Hub. now apply E.
Qed.

Lemma is_min_unique lo lo' ts ts' :
  (forall t, In t ts <-> In t ts') -> is_min lo ts -> is_min lo' ts' -> (lo == lo')%Q.
Proof.
  intros E [Hin Hlb] [Hin' Hlb']. apply Qle_antisym.
  - apply Hlb. now apply E.
  - apply Hlb'. now apply E.
Qed.

Lemma series_span_spec ts :
  match series_span ts with
  | Some d => exists hi lo, is_max hi ts /\ is_min lo ts /\ d = (hi - lo)%Q
  | None => ts = []
  end.
Proof.
  unfold series_span. destruct ts as [|t l]; cbn; [done|].
  exists (fold_left Qmax l t), (fold_left Qmin l t).
  auto using fold_Qmax_is_max, fold_Qmin_is_min.
Qed.

(** Two spans over the same timestamps are equal rationals. *)
Lemma series_span_same ts ts' :
  (forall t, In t ts <-> In t ts') ->
  match series_span ts, series_span ts' with
  | Some d, Some d' => (d == d')%Q
  | None, None => True
  | _, _ => False
  end.
Proof.
  intros E. pose proof (series_span_spec ts) as S1. pose proof (series_span_spec ts') as S2.
  destruct (series_span ts) as [d|], (series_span ts') as [d'|].
  - destruct S1 as (hi & lo & Hhi & Hlo & ->), S2 as (hi' & lo' & Hhi' & Hlo' & ->).
    now rewrite (is_max_unique _ _ _ _ E Hhi Hhi'), (is_min_unique _ _ _ _ E Hlo Hlo').
  - subst ts'. destruct S1 as (hi & _ & [Hin _] & _). now apply E in Hin.
  - subst ts. destruct S2 as (hi & _ & [Hin _] & _). now apply E in Hin.
  - done.
Qed.

Lemma span_is_zero_same d d' : (d == d')%Q -> Qeq_bool d 0 = Qeq_bool d' 0.
Proof.
  intros E. apply eq_true_iff_eq. rewrite !Qeq_bool_iff. now rewrite E.
Qed.

Lemma rate_exceeds_spec d thr c :
  rate_exceeds (Some d) thr c = true <-> (thr < inject_Z (Z.of_nat c) / d)%Q.
Proof.
  cbn. rewrite negb_true_iff, <- not_true_iff_false, Qle_bool_iff.
  split; [apply Qnot_le_lt|apply Qlt_not_le].
Qed.

Lemma rate_exceeds_same d d' thr c :
  (d == d')%Q -> rate_exceeds (Some d) thr c = rate_exceeds (Some d') thr c.
Proof.
  intros E. apply eq_true_iff_eq. rewrite !rate_exceeds_spec. now rewrite E.
Qed.

(** ** The detection heuristics on a frame with rows *)

Lemma from_records_rows {R} (keys : list string) (rows : list R) :
  rows <> [] -> from_records keys rows = {| columns := keys; records := rows |}.
Proof. now destruct rows. Qed.

Lemma getitem_present {R V} (df : DataFrame R) name (field : R -> V) log :
  has_column df name = true ->
  getitem df name field log = (Returned (map field (records df)), log).
Proof. intros E. unfold getitem. now rewrite E. Qed.

Lemma groupby_size_present {R K} `{Countable K} (df : DataFrame R) names (key : R -> K) log :
  forallb (has_column df) names = true ->
  groupby_size df names key log = (Returned (count_by key (records df)), log).
Proof.
  intros E. unfold groupby_size.
  assert (find (fun n => negb (has_column df n)) names = None) as ->; [|done].
  induction names as [|n names IH]; [done|].
  cbn in E |- *. apply andb_true_iff in E as [-> E]. cbn. auto.
Qed.

Section Detectors.

Variable pcap_file : string.

Lemma detect_ddos_rows (rows : list Sec.t) (rate_threshold : Q) log :
  rows <> [] ->
  detect_ddos pcap_file (from_records Sec.keys rows) rate_threshold log =
  let time_span := series_span (map Sec.time rows) in
  if span_is_zero time_span then (Returned ∅, log)
  else
    let targets :=
      dom (filter (fun kv : string * nat =>
                     rate_exceeds time_span rate_threshold kv.2 = true)
                  (count_by Sec.dst_ip rows)) in
    (Returned targets,
     log ++ warning_if_any "Potential DDoS targets in " pcap_file
              (index_order (elements targets))).
Proof.
  intros Hne. rewrite (from_records_rows _ _ Hne). unfold detect_ddos.
  erewrite bind_returned by (apply getitem_present; reflexivity).
  cbn [records]. cbv zeta.
  destruct (span_is_zero _); [reflexivity|].
  erewrite bind_returned by (apply groupby_size_present; reflexivity).
  cbn [records].
  set (targets := dom _).
  destruct (decide (targets = ∅)) as [E|E].
  - rewrite E. cbn. unfold mbind, Py_bind, mret, Py_ret. cbn. now rewrite app_nil_r.
  - unfold mbind, Py_bind, mret, Py_ret, logger.
    assert (index_order (elements targets) <> []) as Hn.
    { intros Hnil. apply E, leibniz_equiv, elements_empty_inv, Permutation_nil_r.
      unfold index_order in Hnil. rewrite <- Hnil. symmetry. apply merge_sort_Permutation. }
    destruct (index_order (elements targets)) eqn:Ei; [done|]. reflexivity.
Qed.

End Detectors.



(** ** Port scans *)

Section Detectors2.

Variable pcap_file : string.
Variable port_scan_threshold : Z.

Lemma detect_port_scanning_rows (rows : list Sec.t) log :
  rows <> [] ->
  detect_port_scanning pcap_file port_scan_threshold (from_records Sec.keys rows) log =
  let port_scan :=
    count_by (fun r => (Sec.src_ip r, Sec.dst_port r)) (List.filter is_syn rows) in
  let unique_ports_per_ip :=
    count_by (fun row : string * Z * nat => row.1.1) (map_to_list port_scan) in
  let scanners :=
    filter (fun kv : string * nat => (port_scan_threshold <= Z.of_nat kv.2)%Z)
           unique_ports_per_ip in
  (Returned scanners,
   log ++ warning_if_any "Potential port scanners in " pcap_file
            (index_order (map fst (map_to_list scanners)))).
Proof.
  intros Hne. rewrite (from_records_rows _ _ Hne). unfold detect_port_scanning.
  erewrite bind_returned by (apply getitem_present; reflexivity).
  erewrite bind_returned by (apply getitem_present; reflexivity).
  cbv zeta.
  erewrite bind_returned by (apply groupby_size_present; reflexivity).
  erewrite bind_returned by (apply groupby_size_present; reflexivity).
  cbn [records where_]. fold is_syn.
  change (fun r : Sec.t => (Sec.protocol r =? 6)%Z && contains_S (Sec.tcp_flags r))
    with is_syn.
  set (scanners := filter _ _).
  destruct (decide (scanners = ∅)) as [E|E].
  - rewrite E, map_to_list_empty. unfold mbind, Py_bind, mret, Py_ret. cbn.
    now rewrite app_nil_r.
  - unfold mbind, Py_bind, mret, Py_ret, logger.
    assert (index_order (map fst (map_to_list scanners)) <> []) as Hn.
    { intros Hnil. apply E, map_to_list_empty_iff.
      assert (map fst (map_to_list scanners) = []) as Hm.
      { apply Permutation_nil_r. unfold index_order in Hnil. rewrite <- Hnil.
        symmetry. apply merge_sort_Permutation. }
      now destruct (map_to_list scanners). }
    destruct (index_order _) eqn:Ei; [done|]. reflexivity.
Qed.

End Detectors2.

Lemma port_scan_keys (syn : list Sec.t) (s : string) (p : Z) :
  is_Some (count_by (fun r => (Sec.src_ip r, Sec.dst_port r)) syn !! (s, p)) <->
  p ∈ Sec.dst_port <$> filter (fun r => Sec.src_ip r = s) syn.
Proof.
  rewrite count_by_is_Some, list_elem_of_fmap. split.
  - intros (r & Hr & [= Hs Hp]). exists r. split; [done|].
    apply list_elem_of_filter. done.
  - intros (r & -> & Hr). apply list_elem_of_filter in Hr as [Hs Hr]. exists r.
    split; [done|]. now rewrite Hs.
Qed.

(** The second grouping counts, for each source, the distinct ports of the
    first. *)
Lemma unique_ports_lookup (syn : list Sec.t) (s : string) :
  let ports : gset Z :=
    list_to_set (Sec.dst_port <$> filter (fun r => Sec.src_ip r = s) syn) in
  count_by (fun row : string * Z * nat => row.1.1)
    (map_to_list (count_by (fun r => (Sec.src_ip r, Sec.dst_port r)) syn)) !! s =
  if decide (ports = ∅) then None else Some (size ports).
Proof.
  intros ports. rewrite count_by_lookup.
  set (m := count_by _ syn).
  set (L := group _ s (map_to_list m)).
  assert (forall row, row ∈ L <-> row.1.1 = s /\ m !! row.1 = Some row.2) as HL.
  { intros [[s' p] c]. unfold L, group. rewrite list_elem_of_filter, elem_of_map_to_list.
    cbn. tauto. }
  assert (NoDup ((fun row : string * Z * nat => row.1.2) <$> L)) as Hnd.
  { apply NoDup_fmap_2_strong.
    - intros [[s1 p1] c1] [[s2 p2] c2] [H1 M1]%HL [H2 M2]%HL Hp. cbn in *. subst.
      rewrite M1 in M2. congruence.
    - apply NoDup_filter, NoDup_map_to_list. }
  assert (ports = list_to_set ((fun row : string * Z * nat => row.1.2) <$> L)) as Hports.
  { apply set_eq. intros p. unfold ports. rewrite !elem_of_list_to_set.
    rewrite <- port_scan_keys. fold m. rewrite list_elem_of_fmap. split.
    - intros [c Hc]. exists (s, p, c). split; [done|]. apply HL. done.
    - intros ([[s' p'] c] & -> & [Hs Hm]%HL). cbn in *. subst. eauto. }
  assert (size ports = length L) as Hsize.
  { rewrite Hports, size_list_to_set by done. apply length_fmap. }
  destruct L as [|row L'] eqn:EL.
  - rewrite Hports. cbn. now rewrite decide_True.
  - rewrite decide_False; [now rewrite Hsize|].
    intros Hemp. rewrite Hemp, size_empty in Hsize. discriminate.
Qed.

(** C2: over a non-empty set of security records, port-scan detection
    returns without raising, and a source is flagged exactly when it has a TCP
    SYN record and the number of its distinct SYN destination ports is at
    least the threshold; for a positive threshold, exactly when that number
    is at least the threshold.  The count reported is that number, however
    many SYNs hit each port, so with threshold 100 a source with 150 distinct
    ports is flagged and one with 99 is not. *)
Theorem C2_port_scan_detection (pcap_file : string) (port_scan_threshold : Z)
    (rows : list Sec.t) :
  rows <> [] ->
  exists scanners log,
    call (detect_port_scanning pcap_file port_scan_threshold (from_records Sec.keys rows)) =
      (Returned scanners, log) /\
    forall source,
      let ports := size (syn_ports source rows) in
      (forall n, scanners !! source = Some n -> n = ports) /\
      (is_Some (scanners !! source) <->
       0 < ports /\ (port_scan_threshold <= Z.of_nat ports)%Z) /\
      ((0 < port_scan_threshold)%Z ->
       (is_Some (scanners !! source) <-> (port_scan_threshold <= Z.of_nat ports)%Z)) /\
      (port_scan_threshold = 100%Z -> ports = 150 -> is_Some (scanners !! source)) /\
      (port_scan_threshold = 100%Z -> ports = 99 -> scanners !! source = None).
Proof.
  intros Hne. unfold call. rewrite (detect_port_scanning_rows _ _ _ _ Hne). cbv zeta.
  eexists _, _. split; [reflexivity|]. intros source.
  set (scanners := filter _ _).
  assert (forall n, scanners !! source = Some n <->
                    n = size (syn_ports source rows) /\ 0 < n /\
                    (port_scan_threshold <= Z.of_nat n)%Z) as Hs.
  { intros n. unfold scanners. rewrite map_lookup_filter_Some, unique_ports_lookup.
    cbn [snd]. fold (syn_ports source rows).
    destruct (decide (syn_ports source rows = ∅)) as [E|E].
    - rewrite E, size_empty. split; [intros [[=] _]|]. intros (-> & ? & _). lia.
    - assert (size (syn_ports source rows) <> 0) by (intros Hz%size_empty_inv; now apply E, leibniz_equiv).
      split; [intros [[= <-] ?]|intros (-> & _ & ?)]; repeat split; try done; lia. }
  assert (is_Some (scanners !! source) <->
          0 < size (syn_ports source rows) /\
          (port_scan_threshold <= Z.of_nat (size (syn_ports source rows)))%Z) as Hi.
  { split.
    - intros [n (-> & ? & ?)%Hs]. done.
    - intros [? ?]. exists (size (syn_ports source rows)). apply Hs. done. }
  cbv zeta. split; [now intros n (-> & _)%Hs|].
  split; [exact Hi|].
  split; [intros ?; rewrite Hi; split; [tauto|]; intros ?; split; [lia|done]|].
  split.
  - intros -> Hp. apply Hi. rewrite Hp. lia.
  - intros -> Hp. apply eq_None_not_Some. rewrite Hi, Hp. lia.
Qed.

(** ** The tables of [analyze_packet_data] *)

Lemma analyze_packet_data_rows (protocol_map : gmap Z string) (rows : list (Gen.t Z)) log :
  rows <> [] ->
  analyze_packet_data protocol_map (from_records Gen.keys rows) log =
  (Returned ({| columns := Gen.keys; records := map (name_protocol protocol_map) rows |},
             tables_of (map (name_protocol protocol_map) rows) (map Gen.size rows)),
   log).
Proof.
  intros Hne. rewrite (from_records_rows _ _ Hne). unfold analyze_packet_data.
  erewrite bind_returned by (apply getitem_present; reflexivity).
  erewrite bind_returned by (apply getitem_present; reflexivity).
  cbv zeta. unfold value_counts.
  erewrite bind_returned
    by (erewrite bind_returned by (apply getitem_present; reflexivity); reflexivity).
  erewrite bind_returned by (apply groupby_size_present; reflexivity).
  erewrite bind_returned by (apply groupby_size_present; reflexivity).
  erewrite bind_returned by (apply groupby_size_present; reflexivity).
  reflexivity.
Qed.

(** ** Shares within a host pair *)

Section GroupTotals.

Context {K : Type} `{Countable K}.
Variable P : K -> Prop.
Context `{forall k, Decision (P k)}.

Lemma weight_insert_fresh (m : gmap K nat) k v :
  m !! k = None ->
  weight P (<[k:=v]> m) = (if decide (P k) then v else 0) + weight P m.
Proof.
  intros Hk. unfold weight. rewrite (map_to_list_insert m k v Hk), filter_cons. cbn [fst].
  destruct (decide (P k)); reflexivity.
Qed.

Lemma weight_insert (m : gmap K nat) k v :
  weight P (<[k:=v]> m) + (if decide (P k) then default 0 (m !! k) else 0) =
  weight P m + (if decide (P k) then v else 0).
Proof.
  destruct (m !! k) as [old|] eqn:Hk.
  - rewrite <- (insert_delete_eq m k v).
    rewrite <- (insert_delete_id m k old Hk) at 2.
    rewrite !weight_insert_fresh by apply lookup_delete_eq.
    cbn. destruct (decide (P k)); lia.
  - rewrite weight_insert_fresh by done. cbn. destruct (decide (P k)); lia.
Qed.

Lemma weight_count_by {R} (key : R -> K) (rows : list R) :
  weight P (count_by key rows) = length (filter (fun r => P (key r)) rows).
Proof.
  induction rows as [|r rows IH]; [done|].
  unfold count_by in *. cbn [sum_by foldr]. fold (sum_by key (fun _ => 1) rows).
  pose proof (weight_insert (sum_by key (fun _ => 1) rows) (key r)
                (1 + default 0 (sum_by key (fun _ => 1) rows !! key r))) as Hw.
  rewrite filter_cons. destruct (decide (P (key r))); cbn [length]; lia.
Qed.

End GroupTotals.

Lemma percent_add a b t : (percent (a + b) t == percent a t + percent b t)%Q.
Proof.
  unfold percent. rewrite Nat2Z.inj_add, inject_Z_plus. unfold Qdiv. ring.
Qed.

Lemma percent_whole t : 0 < t -> (percent t t == 100)%Q.
Proof.
  intros Ht. unfold percent. field.
  intros E. unfold Qeq in E. cbn in E. lia.
Qed.

Lemma Qsum_percent {A} (f : A -> nat) (l : list A) t :
  (Qsum (map (fun x => percent (f x) t) l) == percent (sum_list_with f l) t)%Q.
Proof.
  induction l as [|x l IH]; cbn.
  - unfold percent. cbn. unfold Qdiv. ring.
  - rewrite IH. symmetry. apply percent_add.
Qed.

Lemma Qsum_permutation (l l' : list Q) : l ≡ₚ l' -> (Qsum l == Qsum l')%Q.
Proof.
  induction 1 as [|x l l' _ IH|x y l|l l' l'' _ IH1 _ IH2]; cbn.
  - reflexivity.
  - now rewrite IH.
  - ring.
  - now rewrite IH1.
Qed.

Lemma Qsum_ext {A} (f g : A -> Q) (l : list A) :
  (forall x, x ∈ l -> f x = g x) -> Qsum (map f l) = Qsum (map g l).
Proof.
  intros E. f_equal. apply map_ext_in. intros x Hx. apply E. now apply list_elem_of_In.
Qed.

Lemma length_filter_map {A B} (f : A -> B) (P : B -> Prop) `{forall b, Decision (P b)}
    (l : list A) :
  length (filter P (map f l)) = length (filter (fun a => P (f a)) l).
Proof.
  induction l as [|a l IH]; [done|].
  cbn [map]. rewrite !filter_cons. destruct (decide (P (f a))); cbn; now rewrite IH.
Qed.

Section PairShares.

Variable named : list (Gen.t string).
Variable sizes : list Z.
Variables s d : string.

Lemma pair_rows_total : sum_list_with snd (pair_rows named s d) = pair_total named s d.
Proof.
  unfold pair_rows, pair_total. fold (weight (in_pair s d) (pair_counts named)).
  unfold pair_counts. rewrite weight_count_by. f_equal. apply list_filter_iff.
  intros r. unfold in_pair. cbn. split; [intros [= Hs Hd]; auto|intros [Hs Hd]; congruence].
Qed.

Lemma pair_sum_lookup :
  pair_rows named s d <> [] ->
  sum_by (fun row : string * string * string * nat => (row.1.1.1, row.1.1.2)) snd
         (map_to_list (pair_counts named)) !! (s, d) = Some (pair_total named s d).
Proof.
  intros Hne. rewrite sum_by_lookup.
  change (group _ (s, d) (map_to_list (pair_counts named))) with (pair_rows named s d).
  pose proof pair_rows_total as Ht.
  destruct (pair_rows named s d) as [|x l]; [done|]. now rewrite Ht.
Qed.

Lemma pair_shares :
  let shares :=
    filter (fun row : string * string * string * (nat * Q) =>
              row.1.1.1 = s /\ row.1.1.2 = d)
           (map_to_list (ip_communication_protocols (tables_of named sizes))) in
  0 < pair_total named s d ->
  shares ≡ₚ (fun kc : string * string * string * nat =>
               (kc.1, (kc.2, percent kc.2 (pair_total named s d)))) <$> pair_rows named s d.
Proof.
  intros shares Hpos.
  assert (pair_rows named s d <> []) as Hne.
  { intros E. pose proof pair_rows_total as Ht. rewrite E in Ht. cbn in Ht. lia. }
  pose proof (pair_sum_lookup Hne) as Hsum.
  apply NoDup_Permutation.
  - apply NoDup_filter, NoDup_map_to_list.
  - apply NoDup_fmap_2_strong; [|apply NoDup_filter, NoDup_map_to_list].
    intros [k c] [k' c'] _ _ [= -> -> _]. done.
  - intros [[[s' d'] p] [c q]]. unfold shares, pair_rows.
    rewrite list_elem_of_filter, elem_of_map_to_list, list_elem_of_fmap. cbn [fst snd].
    cbn [tables_of ip_communication_protocols]. rewrite map_lookup_imap.
    fold (pair_counts named). split.
    + intros [[-> ->] Hl].
      destruct (pair_counts named !! (s, d, p)) as [c0|] eqn:Ec; [|done].
      cbn in Hl. rewrite Hsum in Hl. cbn in Hl. injection Hl as <- <-.
      exists (s, d, p, c0). split; [done|].
      apply list_elem_of_filter. split; [done|]. now apply elem_of_map_to_list.
    + intros ([k c0] & Heq & Hin). cbn in Heq. injection Heq as Hk Hc Hq.
      subst k c q. apply list_elem_of_filter in Hin as [Hp Hin].
      apply elem_of_map_to_list in Hin. unfold in_pair in Hp. cbn in Hp, Hin.
      injection Hp as Hs Hd. split; [done|].
      rewrite Hin. cbn. now rewrite Hs, Hd, Hsum.
Qed.

End PairShares.

(** C7: in the per-protocol host-pair table, the percentage of a row is its
    count over the number of records of its own (source, destination) pair,
    times 100, and for every pair that occurs among the general-traffic
    records the percentages of the pair's rows sum to 100. *)
Theorem C7_pair_shares_sum_to_100 (protocol_map : gmap Z string)
    (rows : list (Gen.t Z)) (s d : string) :
  (exists r, r ∈ rows /\ Gen.src_ip r = s /\ Gen.dst_ip r = d) ->
  exists df tables log,
    call (analyze_packet_data protocol_map (from_records Gen.keys rows)) =
      (Returned (df, tables), log) /\
    let shares :=
      filter (fun row : string * string * string * (nat * Q) =>
                row.1.1.1 = s /\ row.1.1.2 = d)
             (map_to_list (ip_communication_protocols tables)) in
    let total :=
      length (filter (fun r : Gen.t Z => Gen.src_ip r = s /\ Gen.dst_ip r = d) rows) in
    shares <> [] /\
    Forall (fun row => row.2.2 = percent row.2.1 total) shares /\
    (Qsum (map (fun row => row.2.2) shares) == 100)%Q.
Proof.
  intros (r & Hr & Hs & Hd).
  assert (rows <> []) as Hne by (intros ->; inversion Hr).
  unfold call. rewrite (analyze_packet_data_rows _ _ _ Hne).
  eexists _, _, _. split; [reflexivity|]. cbv zeta.
  set (named := map (name_protocol protocol_map) rows).
  set (total := length (filter _ rows)).
  assert (pair_total named s d = total) as Ht.
  { unfold pair_total, named, total. now rewrite length_filter_map. }
  assert (0 < total) as Hpos.
  { unfold total. assert (r ∈ filter (fun r : Gen.t Z => Gen.src_ip r = s /\ Gen.dst_ip r = d) rows) as Hin
      by (apply list_elem_of_filter; done).
    destruct (filter _ rows); [inversion Hin|cbn; lia]. }
  pose proof (pair_shares named (map Gen.size rows) s d) as Hp. cbv zeta in Hp.
  rewrite Ht in Hp. specialize (Hp Hpos).
  pose proof (pair_rows_total named s d) as Hsum. rewrite Ht in Hsum.
  set (shares := filter _ (map_to_list (ip_communication_protocols _))) in *.
  set (pair_rows := pair_rows named s d) in *.
  split; [|split].
  - intros E. rewrite E in Hp. symmetry in Hp. apply Permutation_nil_r in Hp.
    apply fmap_nil_inv in Hp. rewrite Hp in Hsum. cbn in Hsum. lia.
  - rewrite Hp. apply Forall_fmap, Forall_forall. done.
  - rewrite (Qsum_permutation _ _ (Permutation_map _ Hp)).
    change (map (fun row : string * string * string * (nat * Q) => row.2.2)
              ((fun kc : string * string * string * nat =>
                  (kc.1, (kc.2, percent kc.2 total))) <$> pair_rows))
      with (map (fun row : string * string * string * (nat * Q) => row.2.2)
              (map (fun kc : string * string * string * nat =>
                      (kc.1, (kc.2, percent kc.2 total))) pair_rows)).
    rewrite map_map. cbn [snd].
    rewrite (Qsum_percent snd pair_rows total), Hsum. now apply percent_whole.
Qed.

(** ** Order of the records *)

Lemma List_filter_permutation {A} (f : A -> bool) (l l' : list A) :
  l ≡ₚ l' -> List.filter f l ≡ₚ List.filter f l'.
Proof.
  induction 1 as [|x l l' _ IH|x y l|l l' l'' _ IH1 _ IH2]; cbn.
  - done.
  - destruct (f x); [now constructor|done].
  - destruct (f x), (f y); try done. apply perm_swap.
  - now rewrite IH1.
Qed.

Lemma foldr_Zadd_permutation (l l' : list Z) :
  l ≡ₚ l' -> foldr Z.add 0%Z l = foldr Z.add 0%Z l'.
Proof.
  induction 1 as [|x l l' _ IH|x y l|l l' l'' _ IH1 _ IH2]; cbn; lia.
Qed.

Lemma tables_of_permutation (named named' : list (Gen.t string)) (sizes sizes' : list Z) :
  named ≡ₚ named' -> sizes ≡ₚ sizes' -> tables_of named sizes = tables_of named' sizes'.
Proof.
  intros Hn Hs. unfold tables_of.
  rewrite (count_by_permutation id _ _ (Permutation_map Gen.protocol Hn)).
  rewrite (count_by_permutation (fun r => (Gen.src_ip r, Gen.dst_ip r)) _ _ Hn).
  rewrite (count_by_permutation
             (fun r => (Gen.src_ip r, Gen.dst_ip r, Gen.protocol r)) _ _ Hn).
  rewrite (count_by_permutation
             (fun r => (Gen.src_ip r, Gen.dst_ip r, Gen.src_port r, Gen.dst_port r,
                        Gen.protocol r)) _ _ Hn).
  now rewrite (Permutation_length Hn), (foldr_Zadd_permutation _ _ Hs).
Qed.

Lemma flood_filter_same (ts ts' : list Q) (thr : Q) (sizes : gmap string nat) :
  (forall t, In t ts <-> In t ts') ->
  span_is_zero (series_span ts) = span_is_zero (series_span ts') /\
  filter (fun kv : string * nat => rate_exceeds (series_span ts) thr kv.2 = true) sizes =
  filter (fun kv : string * nat => rate_exceeds (series_span ts') thr kv.2 = true) sizes.
Proof.
  intros E. pose proof (series_span_same ts ts' E) as Hs.
  destruct (series_span ts) as [d|], (series_span ts') as [d'|]; try done.
  split; [now apply span_is_zero_same|].
  apply map_filter_ext. intros k c _. cbn [snd]. now rewrite (rate_exceeds_same d d').
Qed.

(** C8: the tables of the aggregation, and what the two detectors return
    and log, do not depend on the order of the records. *)
Theorem C8_order_independence (pcap_file : string) (port_scan_threshold : Z)
    (protocol_map : gmap Z string) (rate_threshold : Q)
    (rows rows' : list (Gen.t Z)) (sec sec' : list Sec.t) :
  rows ≡ₚ rows' ->
  sec ≡ₚ sec' ->
  match call (analyze_packet_data protocol_map (from_records Gen.keys rows)),
        call (analyze_packet_data protocol_map (from_records Gen.keys rows')) with
  | (Returned (_, tables), log), (Returned (_, tables'), log') =>
      tables = tables' /\ log = log'
  | (Raised e, log), (Raised e', log') => e = e' /\ log = log'
  | _, _ => False
  end /\
  call (detect_port_scanning pcap_file port_scan_threshold (from_records Sec.keys sec)) =
  call (detect_port_scanning pcap_file port_scan_threshold (from_records Sec.keys sec')) /\
  call (detect_ddos pcap_file (from_records Sec.keys sec) rate_threshold) =
  call (detect_ddos pcap_file (from_records Sec.keys sec') rate_threshold).
Proof.
  intros Hr Hs. split; [|split].
  - destruct rows as [|r rows0] eqn:Er.
    { apply Permutation_nil_l in Hr. subst rows'. cbn. done. }
    assert (rows' <> []) as Hne'.
    { intros ->. apply Permutation_nil_r in Hr. discriminate. }
    unfold call. rewrite !analyze_packet_data_rows by done.
    split; [|done]. apply tables_of_permutation; now apply Permutation_map.
  - destruct sec as [|r sec0] eqn:Es.
    { apply Permutation_nil_l in Hs. now subst sec'. }
    assert (sec' <> []) as Hne'.
    { intros ->. apply Permutation_nil_r in Hs. discriminate. }
    unfold call. rewrite !detect_port_scanning_rows by done. cbv zeta.
    now rewrite (count_by_permutation (fun r => (Sec.src_ip r, Sec.dst_port r)) _ _
                   (List_filter_permutation is_syn _ _ Hs)).
  - destruct sec as [|r sec0] eqn:Es.
    { apply Permutation_nil_l in Hs. now subst sec'. }
    assert (sec' <> []) as Hne'.
    { intros ->. apply Permutation_nil_r in Hs. discriminate. }
    unfold call. rewrite !detect_ddos_rows by done. cbv zeta.
    rewrite <- Es in *. clear Es.
    assert (forall t, In t (map Sec.time sec) <-> In t (map Sec.time sec')) as E.
    { intros t. split; apply Permutation_in; [|symmetry]; now apply Permutation_map. }
    destruct (flood_filter_same _ _ rate_threshold (count_by Sec.dst_ip sec) E)
      as [-> ->].
    now rewrite (count_by_permutation Sec.dst_ip _ _ Hs).
Qed.

(** ** The properties on sample captures *)

Lemma C2_port_scan_detection_witness :
  (exists scanners log,
     call (detect_port_scanning "capture.pcap" 100
             (from_records Sec.keys (probes "10.0.0.1" 150))) = (Returned scanners, log) /\
     is_Some (scanners !! "10.0.0.1")) /\
  (exists scanners log,
     call (detect_port_scanning "capture.pcap" 100
             (from_records Sec.keys (probes "10.0.0.1" 99))) = (Returned scanners, log) /\
     scanners !! "10.0.0.1" = None).
Proof.
  split.
  - destruct (C2_port_scan_detection "capture.pcap" 100 (probes "10.0.0.1" 150))
      as (scanners & log & Hcall & H); [discriminate|].
    exists scanners, log. split; [exact Hcall|].
    apply (H "10.0.0.1"); [reflexivity|vm_compute; reflexivity].
  - destruct (C2_port_scan_detection "capture.pcap" 100 (probes "10.0.0.1" 99))
      as (scanners & log & Hcall & H); [discriminate|].
    exists scanners, log. split; [exact Hcall|].
    apply (H "10.0.0.1"); [reflexivity|vm_compute; reflexivity].
Defined.


Lemma C7_pair_shares_sum_to_100_witness :
  exists df tables log,
    call (analyze_packet_data protocol_dict
            (from_records Gen.keys
               [traffic_record "10.0.0.1" "10.0.0.2" 6;
                traffic_record "10.0.0.1" "10.0.0.2" 17;
                traffic_record "10.0.0.1" "10.0.0.2" 6;
                traffic_record "10.0.0.3" "10.0.0.2" 1])) = (Returned (df, tables), log) /\
    (Qsum (map (fun row : string * string * string * (nat * Q) => row.2.2)
            (filter (fun row : string * string * string * (nat * Q) =>
                       row.1.1.1 = "10.0.0.1" /\ row.1.1.2 = "10.0.0.2")
                    (map_to_list (ip_communication_protocols tables)))) == 100)%Q.
Proof.
  destruct (C7_pair_shares_sum_to_100 protocol_dict
              [traffic_record "10.0.0.1" "10.0.0.2" 6;
               traffic_record "10.0.0.1" "10.0.0.2" 17;
               traffic_record "10.0.0.1" "10.0.0.2" 6;
               traffic_record "10.0.0.3" "10.0.0.2" 1] "10.0.0.1" "10.0.0.2")
    as (df & tables & log & Hcall & _ & _ & Hsum).
  - exists (traffic_record "10.0.0.1" "10.0.0.2" 6).
    split; [apply list_elem_of_here|split; reflexivity].
  - exists df, tables, log. split; [exact Hcall|exact Hsum].
Defined.

Lemma C8_order_independence_witness :
  call (detect_ddos "capture.pcap"
          (from_records Sec.keys [syn_record "10.0.0.1" 80 0; syn_record "10.0.0.3" 81 2])
          1000) =
  call (detect_ddos "capture.pcap"
          (from_records Sec.keys [syn_record "10.0.0.3" 81 2; syn_record "10.0.0.1" 80 0])
          1000).
Proof.
  refine (proj2 (proj2 (C8_order_independence "capture.pcap" 100 protocol_dict 1000
                          [traffic_record "10.0.0.1" "10.0.0.2" 6;
                           traffic_record "10.0.0.3" "10.0.0.2" 17]
                          [traffic_record "10.0.0.3" "10.0.0.2" 17;
                           traffic_record "10.0.0.1" "10.0.0.2" 6]
                          _ _ _ _))); apply perm_swap.
Defined.

(** The examples of the specification, run on the model. *)
Example port_scan_150_ports :
  (call (detect_port_scanning "capture.pcap" 100
           (from_records Sec.keys (probes "10.0.0.1" 150)))).1 =
  Returned {["10.0.0.1" := 150]}.
Proof. vm_compute. reflexivity. Qed.

Example port_scan_99_ports :
  call (detect_port_scanning "capture.pcap" 100
          (from_records Sec.keys (probes "10.0.0.1" 99))) = (Returned ∅, []).
Proof. vm_compute. reflexivity. Qed.

Example flood_3000_packets_in_2_seconds :
  call (detect_ddos "capture.pcap"
          (from_records Sec.keys
             (syn_record "10.0.0.1" 80 2 :: repeat (syn_record "10.0.0.1" 80 0) 2999))
          1000) =
  (Returned {["10.0.0.2"]}, [(WARNING, "Potential DDoS targets in capture.pcap: 10.0.0.2")]).
Proof. vm_compute. reflexivity. Qed.

Example flood_zero_time_span :
  call (detect_ddos "capture.pcap"
          (from_records Sec.keys (repeat (syn_record "10.0.0.1" 80 5) 3000)) 1000) =
  (Returned ∅, []).
Proof. vm_compute. reflexivity. Qed.

Example is_valid_ip_accepts : is_valid_ip "192.168.1.255" = true.
Proof. reflexivity. Qed.

Example is_valid_ip_rejects_256 : is_valid_ip "1.2.3.256" = false.
Proof. reflexivity. Qed.

Example is_valid_ip_rejects_three_octets : is_valid_ip "1.2.3" = false.
Proof. reflexivity. Qed.

Example is_valid_ip_double_zero : is_valid_ip "00.1.2.3" = true.
Proof. reflexivity. Qed.

(** A dotted quad followed by one line feed matches the pattern, [$] holding
    before a final line feed. *)
Example is_valid_ip_trailing_line_feed :
  is_valid_ip (String.append "1.2.3.4" (String line_feed EmptyString)) = true.
Proof. reflexivity. Qed.

Example protocol_name_known : protocol_name protocol_dict 6 = "TCP".
Proof. reflexivity. Qed.

Example protocol_name_unknown : protocol_name protocol_dict 200 = "Unknown(200)".
Proof. vm_compute. reflexivity. Qed.

(** * Further properties of the code *)

(** ** The two extraction paths keep the same packets *)

Lemma security_record_process_packet (packet : Packet) :
  security_record packet = to_security <$> process_packet packet.
Proof.
  unfold security_record, process_packet.
  destruct (layer_IP packet) as [ip|]; [|done].
  now destruct (is_valid_ip (src ip) && is_valid_ip (dst ip)).
Qed.

Lemma security_rows_of_traffic_rows (packets : list Packet) :
  omap security_record packets = map to_security (omap process_packet packets).
Proof.
  induction packets as [|p rest IH]; [done|].
  cbn. rewrite security_record_process_packet.
  destruct (process_packet p); cbn; now rewrite IH.
Qed.

Lemma extract_packet_data_rows (packets : list Packet) :
  omap process_packet packets <> [] ->
  call (extract_packet_data packets) =
  (Returned (from_records Gen.keys (omap process_packet packets)), []).
Proof.
  intros Hne. unfold call, extract_packet_data. cbv zeta. rewrite omap_id_map.
  now destruct (omap process_packet packets).
Qed.

Lemma extract_packet_data_returned (packets : list Packet) df log :
  call (extract_packet_data packets) = (Returned df, log) ->
  omap process_packet packets <> [] /\
  df = from_records Gen.keys (omap process_packet packets) /\ log = [].
Proof.
  unfold call, extract_packet_data. cbv zeta. rewrite omap_id_map.
  destruct (omap process_packet packets) as [|r rows]; cbn.
  - discriminate.
  - intros [= <- <-]. done.
Qed.

Lemma extract_security_data_rows (packets : list Packet) :
  omap process_packet packets <> [] ->
  call (extract_security_data packets) =
  (Returned (from_records Sec.keys (map to_security (omap process_packet packets))), []).
Proof.
  intros Hne. unfold call, extract_security_data. cbv zeta.
  rewrite security_rows_of_traffic_rows.
  destruct (omap process_packet packets) as [|r rows]; [done|]. reflexivity.
Qed.

(** X1: when [extract_packet_data] returns a frame, [extract_security_data]
    on the same packets returns, without a warning, the frame whose rows are
    the rows of the first, one for one and in the same order, cut down to the
    security columns. *)
Theorem security_frame_mirrors_traffic_frame (packets : list Packet)
    (df : DataFrame (Gen.t Z)) (log : list (level * string)) :
  call (extract_packet_data packets) = (Returned df, log) ->
  call (extract_security_data packets) =
    (Returned (from_records Sec.keys (map to_security (records df))), []) /\
  length (records df) <> 0.
Proof.
  intros (Hne & -> & _)%extract_packet_data_returned.
  rewrite (extract_security_data_rows _ Hne).
  destruct (omap process_packet packets) as [|r rows]; [done|]. cbn. done.
Qed.

Lemma security_frame_mirrors_traffic_frame_witness :
  call (extract_security_data
          [tcp_packet "10.0.0.1" "10.0.0.2" 80 "S" 0; arp_packet;
           tcp_packet "10.0.0.1" "0.0.0.2" 81 "S" 1]) =
  (Returned
     (from_records Sec.keys
        [{| Sec.src_ip := "10.0.0.1"; Sec.dst_ip := "10.0.0.2"; Sec.protocol := 6;
            Sec.dst_port := 80; Sec.tcp_flags := "S"; Sec.time := 0 |}]), []).
Proof.
  refine (proj1 (security_frame_mirrors_traffic_frame
                   [tcp_packet "10.0.0.1" "10.0.0.2" 80 "S" 0; arp_packet;
                    tcp_packet "10.0.0.1" "0.0.0.2" 81 "S" 1]
                   (from_records Gen.keys
                      [{| Gen.src_ip := "10.0.0.1"; Gen.dst_ip := "10.0.0.2";
                          Gen.protocol := 6%Z; Gen.size := 60; Gen.time := 0;
                          Gen.src_port := 40000; Gen.dst_port := 80;
                          Gen.tcp_flags := "S" |}]) [] _)).
  reflexivity.
Defined.

(** ** ARP and DNS rows *)

Lemma arp_records (packets : list Packet) :
  records (extract_non_ip_data packets) = map arp_row (omap layer_ARP packets).
Proof.
  unfold extract_non_ip_data. cbn [records from_records].
  induction packets as [|p rest IH]; [done|].
  cbn. destruct (layer_ARP p); cbn; now rewrite IH.
Qed.

(** X2: [extract_non_ip_data] keeps one row for every packet with an ARP
    layer, in packet order, whatever else the packet carries: no address
    filter applies, and the frame has no column when no packet has an ARP
    layer. *)
Theorem arp_rows_unfiltered (packets : list Packet) :
  records (extract_non_ip_data packets) = map arp_row (omap layer_ARP packets) /\
  length (records (extract_non_ip_data packets)) =
    length (List.filter (fun p => match layer_ARP p with Some _ => true | None => false end)
              packets) /\
  (columns (extract_non_ip_data packets) = [] <->
   Forall (fun p => layer_ARP p = None) packets).
Proof.
  split; [apply arp_records|]. split.
  - rewrite arp_records, length_map.
    induction packets as [|p rest IH]; [done|].
    cbn. destruct (layer_ARP p); cbn; now rewrite IH.
  - unfold extract_non_ip_data, from_records. cbn [columns].
    induction packets as [|p rest IH]; cbn.
    + split; [constructor|done].
    + destruct (layer_ARP p) as [arp|] eqn:E; cbn.
      * split; [discriminate|]. intros H. inversion H; congruence.
      * rewrite IH. split; [now constructor|]. intros H. now inversion H.
Qed.




(** ** The pipeline as a whole *)

Lemma accepted_rows (capture : list Packet) :
  omap process_packet capture <> [] <-> Exists (fun p => accepted p = true) capture.
Proof.
  unfold accepted. induction capture as [|p rest IH]; cbn.
  - split; [done|]. intros H. inversion H.
  - destruct (process_packet p) as [r|] eqn:E; cbn.
    + split; [intros _; left; now rewrite E|intros _; discriminate].
    + rewrite IH. split; [now right|]. intros H. inversion H; subst; [|done].
      rewrite E in *. discriminate.
Qed.

Lemma length_accepted (capture : list Packet) :
  length (omap process_packet capture) = length (List.filter accepted capture).
Proof.
  unfold accepted. induction capture as [|p rest IH]; [done|].
  cbn. destruct (process_packet p); cbn; now rewrite IH.
Qed.

Lemma not_accepted_all_None (capture : list Packet) :
  ~ Exists (fun p => accepted p = true) capture ->
  Forall (fun p => process_packet p = None) capture.
Proof.
  intros H. apply Forall_forall. intros p Hp.
  destruct (process_packet p) eqn:E; [|done].
  exfalso. apply H, Exists_exists. exists p. split; [done|]. unfold accepted. now rewrite E.
Qed.

Lemma read_pcap_returns (pcap_file : string) (capture : list Packet) log :
  capture <> [] -> read_pcap pcap_file capture log = (Returned capture, log).
Proof. now destruct capture. Qed.

Lemma prefix_append (p : string) : forall w r,
  String.prefix p w = true -> String.prefix p (w +:+ r) = true.
Proof.
  induction p as [|c p IH]; intros w r.
  - intros _. now destruct (w +:+ r).
  - destruct w as [|c' w]; cbn; [discriminate|].
    change (String c' w +:+ r) with (String c' (w +:+ r)). cbn.
    destruct (Ascii.ascii_dec c c'); [apply IH|discriminate].
Qed.

Lemma warning_if_any_level (what pcap_file : string) (flagged : list string) :
  String.prefix "Potential " what = true ->
  Forall (fun rec : level * string =>
            rec.1 = WARNING /\ String.prefix "Potential " rec.2 = true)
         (warning_if_any what pcap_file flagged).
Proof.
  intros Hp. destruct flagged; repeat constructor. cbn [snd].
  now apply prefix_append.
Qed.

Section Run.

Variable pcap_file : string.
Variable port_scan_threshold : Z.
Variable protocol_map : gmap Z string.

Lemma run_with_traffic (capture : list Packet) :
  Exists (fun p => accepted p = true) capture ->
  let rows := omap process_packet capture in
  let sec := map to_security rows in
  exists scanners targets log,
    call (detect_port_scanning pcap_file port_scan_threshold (from_records Sec.keys sec)) =
      (Returned scanners, log) /\
    (exists log', detect_ddos pcap_file (from_records Sec.keys sec) 1000 log =
                  (Returned targets, log ++ log') /\
       call (run pcap_file port_scan_threshold protocol_map capture) =
       (Returned {| analysis := tables_of (map (name_protocol protocol_map) rows)
                                  (map Gen.size rows);
                    potential_scanners := scanners;
                    ddos_targets := targets |}, log ++ log') /\
       Forall (fun rec => rec.1 = WARNING /\ String.prefix "Potential " rec.2 = true)
              (log ++ log')).
Proof.
  intros Hacc rows sec.
  assert (rows <> []) as Hrows by now apply accepted_rows.
  assert (sec <> []) as Hsec by (unfold sec; now destruct rows).
  assert (capture <> []) as Hcap by (intros ->; inversion Hacc).
  pose proof (detect_port_scanning_rows pcap_file port_scan_threshold sec [] Hsec) as Hps.
  cbv zeta in Hps. cbn [app] in Hps.
  set (scanners := filter _ _) in Hps.
  set (log1 := warning_if_any _ _ _) in Hps.
  pose proof (detect_ddos_rows pcap_file sec 1000 log1 Hsec) as Hdd. cbv zeta in Hdd.
  assert (exists targets log',
             detect_ddos pcap_file (from_records Sec.keys sec) 1000 log1 =
             (Returned targets, log1 ++ log') /\
             Forall (fun rec => rec.1 = WARNING /\ String.prefix "Potential " rec.2 = true)
                    log')
    as (targets & log' & Hdd' & Hw').
  { destruct (span_is_zero _).
    - exists ∅, []. rewrite app_nil_r. split; [exact Hdd|constructor].
    - eexists _, _. split; [exact Hdd|]. now apply warning_if_any_level. }
  exists scanners, targets, log1. split; [exact Hps|].
  exists log'. split; [exact Hdd'|]. split.
  - unfold call, run.
    erewrite bind_returned by (apply read_pcap_returns; exact Hcap).
    erewrite bind_returned by (apply extract_packet_data_rows; exact Hrows).
    erewrite bind_returned by (apply extract_security_data_rows; exact Hrows).
    erewrite bind_returned by (apply analyze_packet_data_rows; exact Hrows).
    cbn beta iota.
    erewrite bind_returned by exact Hps.
    erewrite bind_returned by exact Hdd'.
    reflexivity.
  - apply Forall_app. split; [now apply warning_if_any_level|exact Hw'].
Qed.

End Run.

Lemma series_sum_list {K} `{Countable K} (m : gmap K nat) :
  series_sum m = sum_list_with snd (map_to_list m).
Proof.
  unfold series_sum. rewrite map_fold_foldr.
  induction (map_to_list m) as [|[k c] l IH]; cbn; [done|]. now rewrite IH.
Qed.

Lemma filter_all {A} (l : list A) : filter (fun _ : A => True) l = l.
Proof. induction l as [|x l IH]; [done|]. rewrite filter_cons. cbn. now rewrite IH. Qed.

Lemma series_sum_count_by {R K} `{Countable K} (key : R -> K) (rows : list R) :
  series_sum (count_by key rows) = length rows.
Proof.
  rewrite series_sum_list.
  pose proof (weight_count_by (fun _ : K => True) key rows) as Hw.
  unfold weight in Hw. rewrite !filter_all in Hw. exact Hw.
Qed.

Lemma process_packet_size (packet : Packet) (r : Gen.t Z) :
  process_packet packet = Some r -> Gen.size r = pkt_len packet.
Proof.
  unfold process_packet. destruct (layer_IP packet) as [ip|]; [|done].
  destruct (is_valid_ip (src ip) && is_valid_ip (dst ip)); [|done].
  now intros [= <-].
Qed.

Lemma sizes_of_accepted (capture : list Packet) :
  map Gen.size (omap process_packet capture) = map pkt_len (List.filter accepted capture).
Proof.
  unfold accepted. induction capture as [|p rest IH]; [done|].
  cbn. destruct (process_packet p) as [r|] eqn:E; cbn; [|exact IH].
  now rewrite IH, (process_packet_size p r E).
Qed.

(** X4: [run] never raises [KeyError].  It returns a report exactly when
    some packet of the capture passes the address filter; the log then holds
    only the detectors' "Potential ..." warnings, so the warning of an empty
    security set is never logged by [run].  Otherwise it raises
    [SystemExit(1)] and logs only errors. *)
Theorem run_returns_or_exits (pcap_file : string) (port_scan_threshold : Z)
    (protocol_map : gmap Z string) (capture : list Packet) :
  match call (run pcap_file port_scan_threshold protocol_map capture) with
  | (Returned report, log) =>
      Exists (fun p => accepted p = true) capture /\
      Forall (fun rec => rec.1 = WARNING /\ String.prefix "Potential " rec.2 = true) log /\
      (WARNING, "No valid IP packets found for security analysis.") ∉ log
  | (Raised e, log) =>
      e = SystemExit 1 /\
      ~ Exists (fun p => accepted p = true) capture /\
      Forall (fun rec => rec.1 = ERROR) log
  end.
Proof.
  destruct (decide (Exists (fun p => accepted p = true) capture)) as [Hacc|Hno].
  - destruct (run_with_traffic pcap_file port_scan_threshold protocol_map capture Hacc)
      as (scanners & targets & log & _ & log' & _ & -> & Hw).
    split; [exact Hacc|]. split; [exact Hw|].
    intros Hin. rewrite Forall_forall in Hw. apply Hw in Hin as [_ Hp]. discriminate Hp.
  - destruct capture as [|p rest].
    + rewrite run_no_packets. split; [done|]. split; [exact Hno|]. repeat constructor.
    + rewrite run_no_traffic by (done || now apply not_accepted_all_None).
      split; [done|]. split; [exact Hno|]. repeat constructor.
Qed.

Lemma run_without_traffic (pcap_file : string) (port_scan_threshold : Z)
    (protocol_map : gmap Z string) (capture : list Packet) :
  ~ has_traffic capture ->
  exists log, call (run pcap_file port_scan_threshold protocol_map capture) =
              (Raised (SystemExit 1), log) /\
              Forall (fun rec => rec.1 = ERROR) log.
Proof.
  intros Hno. apply not_accepted_all_None in Hno.
  destruct capture as [|p rest].
  - eexists. split; [apply run_no_packets|]. repeat constructor.
  - eexists. split; [apply run_no_traffic; done|]. repeat constructor.
Qed.

Lemma run_with_traffic_returns (pcap_file : string) (port_scan_threshold : Z)
    (protocol_map : gmap Z string) (capture : list Packet) :
  has_traffic capture ->
  exists report log,
    call (run pcap_file port_scan_threshold protocol_map capture) = (Returned report, log).
Proof.
  intros Hacc.
  destruct (run_with_traffic pcap_file port_scan_threshold protocol_map capture Hacc)
    as (scanners & targets & log & _ & log' & _ & Hrun & _).
  eauto.
Qed.

(** X5: when [run] returns, its tables count every packet that passes the
    address filter exactly once: the protocol counts and the flow counts each
    sum to the number of accepted packets, and the total bandwidth is the sum
    of their lengths. *)
Theorem run_counts_accepted_packets (pcap_file : string) (port_scan_threshold : Z)
    (protocol_map : gmap Z string) (capture : list Packet)
    (report : Report) (log : list (level * string)) :
  call (run pcap_file port_scan_threshold protocol_map capture) = (Returned report, log) ->
  let kept := List.filter accepted capture in
  series_sum (protocol_frequency (analysis report)) = length kept /\
  series_sum (flow_counts (analysis report)) = length kept /\
  total_bandwidth (analysis report) = foldr Z.add 0%Z (map pkt_len kept).
Proof.
  intros Hrun kept.
  assert (Exists (fun p => accepted p = true) capture) as Hacc.
  { destruct (decide (Exists (fun p => accepted p = true) capture)) as [H|Hno]; [done|].
    exfalso. destruct capture as [|p rest].
    - rewrite run_no_packets in Hrun. discriminate.
    - rewrite run_no_traffic in Hrun
        by (done || now apply not_accepted_all_None). discriminate. }
  destruct (run_with_traffic pcap_file port_scan_threshold protocol_map capture Hacc)
    as (scanners & targets & log0 & _ & log' & _ & Hr & _).
  rewrite Hr in Hrun. injection Hrun as <- _.
  cbn [analysis tables_of protocol_frequency flow_counts total_bandwidth].
  rewrite !series_sum_count_by, !length_map, length_accepted, sizes_of_accepted. done.
Qed.

Lemma run_counts_accepted_packets_witness :
  let capture := [tcp_packet "10.0.0.1" "10.0.0.2" 80 "S" 0; arp_packet;
                  tcp_packet "10.0.0.1" "0.0.0.2" 81 "S" 1;
                  tcp_packet "10.0.0.3" "10.0.0.2" 443 "SA" 2] in
  exists report log,
    call (run "capture.pcap" 100 protocol_dict capture) = (Returned report, log) /\
    series_sum (protocol_frequency (analysis report)) = length (List.filter accepted capture) /\
    series_sum (flow_counts (analysis report)) = length (List.filter accepted capture) /\
    total_bandwidth (analysis report) =
    foldr Z.add 0%Z (map pkt_len (List.filter accepted capture)).
Proof.
  intros capture.
  assert (has_traffic capture) as Hacc by (apply Exists_cons_hd; reflexivity).
  destruct (run_with_traffic_returns "capture.pcap" 100 protocol_dict capture Hacc)
    as (report & log & Hrun).
  exists report, log. split; [exact Hrun|].
  exact (run_counts_accepted_packets "capture.pcap" 100 protocol_dict capture report log Hrun).
Defined.

(** ** Sums over the tables *)

Lemma count_with_percent {K} `{Countable K} (m : gmap K nat) (f : nat -> Q) :
  map_imap (fun k c => pair c <$> (f <$> m) !! k) m = (fun c => (c, f c)) <$> m.
Proof.
  apply map_eq. intros k. rewrite map_lookup_imap, !lookup_fmap.
  destruct (m !! k) as [c|]; reflexivity.
Qed.

Lemma percent_column_sum {K} `{Countable K} (m : gmap K nat) (t : nat) :
  (Qsum (map (fun row : K * (nat * Q) => row.2.2)
          (map_to_list ((fun c => (c, percent c t)) <$> m))) ==
   percent (series_sum m) t)%Q.
Proof.
  rewrite map_to_list_fmap, series_sum_list.
  change (map (fun row : K * (nat * Q) => row.2.2)
            (prod_map id (fun c => (c, percent c t)) <$> map_to_list m))
    with (map (fun row : K * (nat * Q) => row.2.2)
            (map (prod_map id (fun c => (c, percent c t))) (map_to_list m))).
  rewrite map_map. cbn. apply (Qsum_percent snd).
Qed.

(** X6: over a frame with rows, the percentages of the protocol
    distribution sum to 100 and those of the host-pair table sum to 100, each
    row holding its count over the number of records, times 100; the counts of
    either table sum to the number of records. *)
Theorem distribution_percentages_sum_to_100 (protocol_map : gmap Z string)
    (rows : list (Gen.t Z)) :
  rows <> [] ->
  exists df tables log,
    call (analyze_packet_data protocol_map (from_records Gen.keys rows)) =
      (Returned (df, tables), log) /\
    (Qsum (map (fun row : string * (nat * Q) => row.2.2)
            (map_to_list (protocol_counts_df tables))) == 100)%Q /\
    (Qsum (map (fun row : string * string * (nat * Q) => row.2.2)
            (map_to_list (ip_communication_table tables))) == 100)%Q /\
    series_sum (fst <$> protocol_counts_df tables) = length rows /\
    series_sum (fst <$> ip_communication_table tables) = length rows /\
    map_Forall (fun _ row => row.2 = percent row.1 (length rows))
               (protocol_counts_df tables) /\
    map_Forall (fun _ row => row.2 = percent row.1 (length rows))
               (ip_communication_table tables).
Proof.
  intros Hne. unfold call. rewrite (analyze_packet_data_rows _ _ _ Hne).
  eexists _, _, _. split; [reflexivity|].
  cbn [tables_of protocol_counts_df ip_communication_table].
  rewrite !count_with_percent.
  set (named := map (name_protocol protocol_map) rows).
  assert (length named = length rows) as Hlen by apply length_map.
  assert (0 < length rows) as Hpos by (destruct rows; [done|cbn; lia]).
  rewrite !percent_column_sum, <- !map_fmap_compose.
  rewrite !series_sum_count_by, !length_map, Hlen.
  assert (forall {K} `{Countable K} (m : gmap K nat) (f : nat -> Q),
             fst ∘ (fun c => (c, f c)) <$> m = m) as Hfst.
  { intros K ? ? m f. rewrite <- (map_fmap_id m) at 2. apply map_fmap_ext. done. }
  rewrite !Hfst, !series_sum_count_by, !length_map, Hlen.
  repeat split; try (now apply percent_whole).
  - intros k row. rewrite lookup_fmap. destruct (_ !! k); [|done]. now intros [= <-].
  - intros k row. rewrite lookup_fmap. destruct (_ !! k); [|done]. now intros [= <-].
Qed.

Lemma distribution_percentages_sum_to_100_witness :
  exists df tables log,
    call (analyze_packet_data protocol_dict
            (from_records Gen.keys
               [traffic_record "10.0.0.1" "10.0.0.2" 6;
                traffic_record "10.0.0.1" "10.0.0.2" 17;
                traffic_record "10.0.0.3" "10.0.0.2" 6])) = (Returned (df, tables), log) /\
    (Qsum (map (fun row : string * (nat * Q) => row.2.2)
            (map_to_list (protocol_counts_df tables))) == 100)%Q.
Proof.
  destruct (distribution_percentages_sum_to_100 protocol_dict
              [traffic_record "10.0.0.1" "10.0.0.2" 6;
               traffic_record "10.0.0.1" "10.0.0.2" 17;
               traffic_record "10.0.0.3" "10.0.0.2" 6])
    as (df & tables & log & Hcall & Hsum & _); [discriminate|].
  exists df, tables, log. split; [exact Hcall|exact Hsum].
Defined.

(** X7: the flow table and the per-protocol table refine the host-pair
    table: for every row of the host-pair table, the counts of the flows of
    that pair sum to the row's count, and so do the counts of the pair's rows
    in the per-protocol table. *)
Theorem finer_tables_sum_to_pair_count (protocol_map : gmap Z string)
    (rows : list (Gen.t Z)) (s d : string) :
  rows <> [] ->
  exists df tables log,
    call (analyze_packet_data protocol_map (from_records Gen.keys rows)) =
      (Returned (df, tables), log) /\
    forall c pct,
      ip_communication_table tables !! (s, d) = Some (c, pct) ->
      c = length (filter (fun r : Gen.t Z => Gen.src_ip r = s /\ Gen.dst_ip r = d) rows) /\
      weight (fun k : string * string * Z * Z * string =>
                k.1.1.1.1 = s /\ k.1.1.1.2 = d) (flow_counts tables) = c /\
      weight (fun k : string * string * string => k.1.1 = s /\ k.1.2 = d)
             (fst <$> ip_communication_protocols tables) = c.
Proof.
  intros Hne. unfold call. rewrite (analyze_packet_data_rows _ _ _ Hne).
  eexists _, _, _. split; [reflexivity|]. intros c pct.
  cbn [tables_of ip_communication_table flow_counts ip_communication_protocols].
  set (named := map (name_protocol protocol_map) rows).
  rewrite count_with_percent, lookup_fmap, count_by_lookup.
  assert (length (filter (fun r : Gen.t string => Gen.src_ip r = s /\ Gen.dst_ip r = d)
                    named) =
          length (filter (fun r : Gen.t Z => Gen.src_ip r = s /\ Gen.dst_ip r = d) rows))
    as Hlen by (unfold named; now rewrite length_filter_map).
  assert (group (fun r : Gen.t string => (Gen.src_ip r, Gen.dst_ip r)) (s, d) named =
          filter (fun r : Gen.t string => Gen.src_ip r = s /\ Gen.dst_ip r = d) named)
    as Hg.
  { unfold group. apply list_filter_iff. intros r. split; [intros [= ? ?]; auto|].
    intros [? ?]. congruence. }
  rewrite Hg.
  assert (fst <$> map_imap
            (fun (k : string * string * string) (c0 : nat) =>
               Some (c0, percent c0
                       (default 0
                          (sum_by (fun row : string * string * string * nat =>
                                     (row.1.1.1, row.1.1.2)) snd
                             (map_to_list
                                (count_by (fun r : Gen.t string =>
                                             (Gen.src_ip r, Gen.dst_ip r, Gen.protocol r))
                                   named)) !! (k.1.1, k.1.2)))))
            (count_by (fun r : Gen.t string =>
                         (Gen.src_ip r, Gen.dst_ip r, Gen.protocol r)) named) =
          count_by (fun r : Gen.t string =>
                      (Gen.src_ip r, Gen.dst_ip r, Gen.protocol r)) named) as Hfst.
  { apply map_eq. intros k. rewrite lookup_fmap, map_lookup_imap.
    now destruct (_ !! k). }
  rewrite Hfst, !weight_count_by. cbn [fst snd].
  destruct (filter _ named) as [|r l] eqn:E; cbn; [discriminate|].
  intros [= <- _]. rewrite <- Hlen. done.
Qed.

Lemma finer_tables_sum_to_pair_count_witness :
  exists df tables log,
    call (analyze_packet_data protocol_dict
            (from_records Gen.keys
               [traffic_record "10.0.0.1" "10.0.0.2" 6;
                traffic_record "10.0.0.1" "10.0.0.2" 17;
                traffic_record "10.0.0.3" "10.0.0.2" 6])) = (Returned (df, tables), log) /\
    weight (fun k : string * string * Z * Z * string =>
              k.1.1.1.1 = "10.0.0.1" /\ k.1.1.1.2 = "10.0.0.2") (flow_counts tables) = 2.
Proof.
  destruct (finer_tables_sum_to_pair_count protocol_dict
              [traffic_record "10.0.0.1" "10.0.0.2" 6;
               traffic_record "10.0.0.1" "10.0.0.2" 17;
               traffic_record "10.0.0.3" "10.0.0.2" 6] "10.0.0.1" "10.0.0.2")
    as (df & tables & log & Hcall & H); [discriminate|].
  exists df, tables, log. split; [exact Hcall|].
  apply (H 2 (percent 2 3)).
  unfold call in Hcall. rewrite analyze_packet_data_rows in Hcall by discriminate.
  injection Hcall as _ <- _. vm_compute. reflexivity.
Defined.

(** ** Protocol names *)

Lemma append_char_inj (s1 s2 : string) (c : ascii) :
  s1 +:+ String c "" = s2 +:+ String c "" -> s1 = s2.
Proof.
  revert s2. induction s1 as [|a s1 IH]; intros [|b s2]; cbn; intros E.
  - done.
  - injection E as _ E. now destruct s2.
  - injection E as _ E. now destruct s1.
  - injection E as -> E. f_equal. now apply IH.
Qed.

Lemma protocol_dict_lookup (n : Z) (name : string) :
  protocol_dict !! n = Some name ->
  (n, name) ∈ [(0, "HOPOPT"); (1, "ICMP"); (2, "IGMP"); (6, "TCP"); (17, "UDP");
               (19, "CHARGEN"); (37, "Time"); (89, "OSPF"); (118, "STP"); (120, "SMP");
               (127, "Private"); (170, "EMFAS"); (240, "Experimental")]%Z.
Proof. apply elem_of_list_to_map_2. Qed.

Lemma unique_key_of_value {A B} (l : list (A * B)) (k k' : A) (v : B) :
  NoDup (l.*2) -> (k, v) ∈ l -> (k', v) ∈ l -> k = k'.
Proof.
  induction l as [|[a b] l IH]; intros Hnd Hk Hk'; [inversion Hk|].
  cbn in Hnd. apply NoDup_cons in Hnd as [Hb Hnd].
  apply elem_of_cons in Hk as [Hk|Hk], Hk' as [Hk'|Hk'].
  - congruence.
  - injection Hk as -> ->. exfalso. apply Hb, list_elem_of_fmap. now exists (k', b).
  - injection Hk' as -> ->. exfalso. apply Hb, list_elem_of_fmap. now exists (k, b).
  - now apply IH.
Qed.

Lemma protocol_name_default_inj (n m : Z) :
  protocol_name protocol_dict n = protocol_name protocol_dict m -> n = m.
Proof.
  unfold protocol_name.
  destruct (protocol_dict !! n) as [a|] eqn:En, (protocol_dict !! m) as [b|] eqn:Em; cbn.
  - intros <-. apply protocol_dict_lookup in En, Em.
    eapply unique_key_of_value; [|exact En|exact Em].
    apply (bool_decide_unpack _). vm_compute. exact I.
  - intros ->. apply protocol_dict_lookup in En.
    repeat (apply elem_of_cons in En as [En|En]; [injection En as _ Hs; discriminate Hs|]).
    inversion En.
  - intros <-. apply protocol_dict_lookup in Em.
    repeat (apply elem_of_cons in Em as [Em|Em]; [injection Em as _ Hs; discriminate Hs|]).
    inversion Em.
  - intros E. apply (inj (String.app "Unknown(")) in E.
    apply append_char_inj in E. now apply (inj pretty) in E.
Qed.

(** X8: with the built-in protocol table, [protocol_name] gives different
    names to different protocol numbers, so the protocol distribution counts
    under the name of a number exactly the records with that number. *)
Theorem protocol_distribution_by_number (rows : list (Gen.t Z)) :
  rows <> [] ->
  exists df tables log,
    call (analyze_packet_data protocol_dict (from_records Gen.keys rows)) =
      (Returned (df, tables), log) /\
    (forall n m : Z,
       protocol_name protocol_dict n = protocol_name protocol_dict m -> n = m) /\
    forall n : Z,
      default 0 (protocol_frequency tables !! protocol_name protocol_dict n) =
      length (filter (fun r : Gen.t Z => Gen.protocol r = n) rows).
Proof.
  intros Hne. unfold call. rewrite (analyze_packet_data_rows _ _ _ Hne).
  eexists _, _, _. split; [reflexivity|]. split; [apply protocol_name_default_inj|].
  intros n. cbn [tables_of protocol_frequency]. rewrite count_by_lookup.
  unfold group. rewrite map_map. cbn [name_protocol Gen.protocol].
  assert (forall l : list (Gen.t Z),
             length (filter (fun r : string => id r = protocol_name protocol_dict n)
                       (map (fun r => protocol_name protocol_dict (Gen.protocol r)) l)) =
             length (filter (fun r : Gen.t Z => Gen.protocol r = n) l)) as Hlen.
  { intros l. rewrite length_filter_map. f_equal. apply list_filter_iff. intros r.
    unfold id. split; [apply protocol_name_default_inj|now intros ->]. }
  rewrite <- Hlen. now destruct (filter _ _).
Qed.

Lemma protocol_distribution_by_number_witness :
  exists df tables log,
    call (analyze_packet_data protocol_dict
            (from_records Gen.keys
               [traffic_record "10.0.0.1" "10.0.0.2" 6;
                traffic_record "10.0.0.1" "10.0.0.2" 200;
                traffic_record "10.0.0.3" "10.0.0.2" 201])) =
      (Returned (df, tables), log) /\
    default 0 (protocol_frequency tables !! "Unknown(200)") = 1.
Proof.
  destruct (protocol_distribution_by_number
              [traffic_record "10.0.0.1" "10.0.0.2" 6;
               traffic_record "10.0.0.1" "10.0.0.2" 200;
               traffic_record "10.0.0.3" "10.0.0.2" 201])
    as (df & tables & log & Hcall & _ & H); [discriminate|].
  exists df, tables, log. split; [exact Hcall|]. exact (H 200%Z).
Defined.

(** ** More on the detectors *)

(** X9: raising the port-scan threshold never flags a source that the lower
    threshold did not flag, and leaves the reported port counts unchanged. *)
Theorem port_scan_threshold_monotone (pcap_file : string) (low high : Z)
    (rows : list Sec.t) :
  rows <> [] ->
  (low <= high)%Z ->
  exists flagged_low flagged_high log_low log_high,
    call (detect_port_scanning pcap_file low (from_records Sec.keys rows)) =
      (Returned flagged_low, log_low) /\
    call (detect_port_scanning pcap_file high (from_records Sec.keys rows)) =
      (Returned flagged_high, log_high) /\
    flagged_high ⊆ flagged_low.
Proof.
  intros Hne Hle. unfold call. rewrite !(detect_port_scanning_rows _ _ _ _ Hne). cbv zeta.
  eexists _, _, _, _. split; [reflexivity|]. split; [reflexivity|].
  apply map_subseteq_spec. intros source n.
  rewrite !map_lookup_filter_Some. cbn [snd]. intros [Hl Hn]. split; [done|lia].
Qed.

Lemma port_scan_threshold_monotone_witness :
  exists flagged_low flagged_high log_low log_high,
    call (detect_port_scanning "capture.pcap" 2
            (from_records Sec.keys (probes "10.0.0.1" 3 ++ probes "10.0.0.9" 2))) =
      (Returned flagged_low, log_low) /\
    call (detect_port_scanning "capture.pcap" 3
            (from_records Sec.keys (probes "10.0.0.1" 3 ++ probes "10.0.0.9" 2))) =
      (Returned flagged_high, log_high) /\
    flagged_high ⊆ flagged_low.
Proof.
  apply (port_scan_threshold_monotone "capture.pcap" 2 3); [discriminate|lia].
Defined.

(** X10: a frame of security records without a TCP SYN record gives no
    port-scan alert and no warning, whatever the threshold. *)
Theorem port_scan_needs_syn (pcap_file : string) (port_scan_threshold : Z)
    (rows : list Sec.t) :
  rows <> [] ->
  Forall (fun r => is_syn r = false) rows ->
  call (detect_port_scanning pcap_file port_scan_threshold (from_records Sec.keys rows)) =
  (Returned ∅, []).
Proof.
  intros Hne Hno. unfold call. rewrite (detect_port_scanning_rows _ _ _ _ Hne). cbv zeta.
  assert (List.filter is_syn rows = []) as ->.
  { clear Hne. induction Hno as [|r l Hr _ IH]; [done|]. cbn. now rewrite Hr. }
  change (count_by (fun r : Sec.t => (Sec.src_ip r, Sec.dst_port r)) [])
    with (∅ : gmap (string * Z) nat).
  rewrite map_to_list_empty.
  change (count_by (fun row : string * Z * nat => row.1.1) [])
    with (∅ : gmap string nat).
  rewrite map_filter_empty, map_to_list_empty. reflexivity.
Qed.

Lemma port_scan_needs_syn_witness :
  call (detect_port_scanning "capture.pcap" 0
          (from_records Sec.keys
             [{| Sec.src_ip := "10.0.0.1"; Sec.dst_ip := "10.0.0.2"; Sec.protocol := 17;
                 Sec.dst_port := 0; Sec.tcp_flags := ""; Sec.time := 0 |};
              {| Sec.src_ip := "10.0.0.1"; Sec.dst_ip := "10.0.0.2"; Sec.protocol := 6;
                 Sec.dst_port := 80; Sec.tcp_flags := "PA"; Sec.time := 1 |}])) =
  (Returned ∅, []).
Proof.
  apply port_scan_needs_syn; [discriminate|]. repeat constructor.
Defined.

Lemma count_by_map {A R K} `{Countable K} (f : A -> R) (key : R -> K) (l : list A) :
  count_by key (map f l) = count_by (fun a => key (f a)) l.
Proof.
  unfold count_by, sum_by. induction l as [|a l IH]; [done|].
  cbn [map foldr]. now rewrite IH.
Qed.

Lemma is_max_shift (delta hi : Q) (ts : list Q) :
  is_max hi ts -> is_max (hi + delta)%Q (map (fun t => (t + delta)%Q) ts).
Proof.
  intros [Hin Hub]. split.
  - apply in_map_iff. eauto.
  - intros t (u & <- & Hu)%in_map_iff. apply Qplus_le_compat; [now apply Hub|apply Qle_refl].
Qed.

Lemma is_min_shift (delta lo : Q) (ts : list Q) :
  is_min lo ts -> is_min (lo + delta)%Q (map (fun t => (t + delta)%Q) ts).
Proof.
  intros [Hin Hlb]. split.
  - apply in_map_iff. eauto.
  - intros t (u & <- & Hu)%in_map_iff. apply Qplus_le_compat; [now apply Hlb|apply Qle_refl].
Qed.

Lemma series_span_shift (delta : Q) (ts : list Q) :
  match series_span ts, series_span (map (fun t => (t + delta)%Q) ts) with
  | Some d, Some d' => (d == d')%Q
  | None, None => True
  | _, _ => False
  end.
Proof.
  pose proof (series_span_spec ts) as S1.
  pose proof (series_span_spec (map (fun t => (t + delta)%Q) ts)) as S2.
  destruct (series_span ts) as [d|], (series_span (map _ ts)) as [d'|].
  - destruct S1 as (hi & lo & Hhi & Hlo & ->), S2 as (hi' & lo' & Hhi' & Hlo' & ->).
    rewrite (is_max_unique hi' (hi + delta) _ _ (fun _ => iff_refl _) Hhi'
               (is_max_shift delta hi ts Hhi)).
    rewrite (is_min_unique lo' (lo + delta) _ _ (fun _ => iff_refl _) Hlo'
               (is_min_shift delta lo ts Hlo)).
    ring.
  - destruct ts; [|discriminate S2]. destruct S1 as (hi & _ & [[] _] & _).
  - subst ts. cbn in S2. destruct S2 as (hi & _ & [[] _] & _).
  - done.
Qed.

(** X11: flood detection only looks at differences of timestamps: moving
    every record by the same amount of time changes neither the flagged
    destinations nor the log. *)
Theorem flood_detection_shift_invariant (pcap_file : string) (rate_threshold delta : Q)
    (rows : list Sec.t) :
  call (detect_ddos pcap_file (from_records Sec.keys (map (shift_time delta) rows))
          rate_threshold) =
  call (detect_ddos pcap_file (from_records Sec.keys rows) rate_threshold).
Proof.
  destruct rows as [|r rows0] eqn:Er; [reflexivity|]. rewrite <- Er.
  assert (rows <> []) as Hne by (rewrite Er; discriminate).
  assert (map (shift_time delta) rows <> []) as Hne' by (rewrite Er; discriminate).
  clear Er. unfold call. rewrite !detect_ddos_rows by done. cbv zeta.
  rewrite (count_by_map (shift_time delta) Sec.dst_ip). cbn [shift_time Sec.dst_ip].
  rewrite map_map. cbn [shift_time Sec.time].
  pose proof (series_span_shift delta (map Sec.time rows)) as Hs.
  rewrite map_map in Hs.
  destruct (series_span (map Sec.time rows)) as [d|],
           (series_span (map (fun x => (Sec.time x + delta)%Q) rows)) as [d'|];
    try done.
  cbn [span_is_zero]. rewrite (span_is_zero_same d' d) by now symmetry.
  assert (filter (fun kv : string * nat => rate_exceeds (Some d') rate_threshold kv.2 = true)
                 (count_by (fun a => Sec.dst_ip a) rows) =
          filter (fun kv : string * nat => rate_exceeds (Some d) rate_threshold kv.2 = true)
                 (count_by Sec.dst_ip rows)) as ->; [|reflexivity].
  apply map_filter_ext. intros k c _. cbn [snd].
  now rewrite (rate_exceeds_same d' d) by now symmetry.
Qed.

(** ** The upload filter *)

Lemma has_dot_spec (s : list ascii) : existsb (Ascii.eqb ".") s = true <-> ~ no_dot s.
Proof.
  unfold no_dot. rewrite existsb_exists. split.
  - intros (c & Hin & E) Hn. apply Ascii.eqb_eq in E. subst c. now apply Hn.
  - intros Hn. exists "."%char. split; [|apply Ascii.eqb_refl].
    destruct (in_dec Ascii.ascii_dec "."%char s); [done|]. now apply Hn in n.
Qed.

Lemma rpartition_dot_None (s : list ascii) : App.rpartition_dot s = None <-> no_dot s.
Proof.
  unfold no_dot. induction s as [|c t IH]; cbn.
  - split; [intros _ []|done].
  - destruct (App.rpartition_dot t) as [[a b]|].
    + split; [discriminate|]. intros Hn. exfalso.
      assert (Some (a, b) = None -> ~ In "."%char t) as H by apply IH.
      destruct IH as [_ IH]. discriminate IH. intros Hin. apply Hn. now right.
    + destruct (Ascii.eqb_spec c ".") as [->|Hne].
      * split; [discriminate|]. intros Hn. exfalso. apply Hn. now left.
      * split; [|done]. intros _ [E|Hin]; [congruence|]. now apply IH in Hin.
Qed.

Lemma rpartition_dot_Some (s a b : list ascii) :
  App.rpartition_dot s = Some (a, b) <-> s = a ++ "."%char :: b /\ no_dot b.
Proof.
  split.
  - revert a b. induction s as [|c t IH]; intros a b; cbn; [discriminate|].
    destruct (App.rpartition_dot t) as [[a' b']|] eqn:E.
    + intros [= <- <-]. destruct (IH a' b' eq_refl) as [-> Hb]. done.
    + destruct (Ascii.eqb_spec c ".") as [->|Hne]; [|discriminate].
      intros [= <- <-]. split; [done|]. now apply rpartition_dot_None.
  - intros [-> Hb]. induction a as [|c a IH]; cbn.
    + apply rpartition_dot_None in Hb. now rewrite Hb.
    + now rewrite IH.
Qed.

(** X12: [allowed_file] accepts a file name exactly when the text after its
    last dot is [pcap] or [pcapng] in any mix of upper and lower case; a name
    without a dot is refused. *)
Theorem allowed_file_extension (filename : string) :
  App.allowed_file filename = true <->
  exists stem ext,
    list_ascii_of_string filename = stem ++ "."%char :: ext /\
    no_dot ext /\
    (map App.lower_char ext = list_ascii_of_string "pcap" \/
     map App.lower_char ext = list_ascii_of_string "pcapng").
Proof.
  unfold App.allowed_file. cbv zeta. set (s := list_ascii_of_string filename).
  assert (forall ext,
             existsb (String.eqb (string_of_list_ascii (map App.lower_char ext)))
                     App.ALLOWED_EXTENSIONS = true <->
             map App.lower_char ext = list_ascii_of_string "pcap" \/
             map App.lower_char ext = list_ascii_of_string "pcapng") as Hext.
  { intros ext. unfold App.ALLOWED_EXTENSIONS. cbn [existsb].
    rewrite !orb_true_iff, !String.eqb_eq.
    split.
    - intros [E|[E|E]]; [left|right|discriminate];
        rewrite <- (list_ascii_of_string_of_list_ascii (map App.lower_char ext)); now rewrite E.
    - intros [E|E]; [left|right; left]; now rewrite E. }
  rewrite andb_true_iff, has_dot_spec. unfold App.rsplit_dot_1.
  destruct (App.rpartition_dot s) as [[a b]|] eqn:E.
  - apply rpartition_dot_Some in E as [Hs Hb]. cbn [nth_error]. rewrite Hext. split.
    + intros [_ H]. exists a, b. done.
    + intros (stem & ext & Hs' & Hext' & H).
      assert (App.rpartition_dot s = Some (stem, ext)) as E'
        by (apply rpartition_dot_Some; done).
      assert (App.rpartition_dot s = Some (a, b)) as E''
        by (apply rpartition_dot_Some; done).
      rewrite E' in E''. injection E'' as -> ->. split; [|done].
      intros Hn. apply Hn. rewrite Hs. apply in_app_iff. right. now left.
  - apply rpartition_dot_None in E. split; [intros [Hn _]; done|].
    intros (stem & ext & Hs & _). exfalso. apply E. rewrite Hs.
    apply in_app_iff. right. now left.
Qed.

Example allowed_file_upper_case : App.allowed_file "Trace.01.PcapNG" = true.
Proof. reflexivity. Qed.

Example allowed_file_inner_extension : App.allowed_file "trace.pcap.exe" = false.
Proof. reflexivity. Qed.

Example allowed_file_no_dot : App.allowed_file "pcap" = false.
Proof. reflexivity. Qed.

(** ** The bandwidth line of the report *)

(** X13: for a total of at least 0 bytes, [print_results] picks "Mbps" and a
    value from 0 to below 1000 when the total is below 10^9, and "Gbps" and
    a value of at least 1 otherwise; the value, before it is rounded for
    printing, is the total divided by 10^6, respectively 10^9. *)
Theorem bandwidth_display_bounds (total_bandwidth : Z) :
  (0 <= total_bandwidth)%Z ->
  ((total_bandwidth < 10 ^ 9)%Z /\ bandwidth_unit total_bandwidth = "Mbps" /\
   (bandwidth_scaled total_bandwidth * inject_Z (10 ^ 6) == inject_Z total_bandwidth)%Q /\
   (0 <= bandwidth_scaled total_bandwidth < 1000)%Q) \/
  ((10 ^ 9 <= total_bandwidth)%Z /\ bandwidth_unit total_bandwidth = "Gbps" /\
   (bandwidth_scaled total_bandwidth * inject_Z (10 ^ 9) == inject_Z total_bandwidth)%Q /\
   (1 <= bandwidth_scaled total_bandwidth)%Q).
Proof.
  intros Hpos. unfold bandwidth_scaled, bandwidth_unit.
  destruct (Z.ltb_spec total_bandwidth (10 ^ 9)) as [Hlt|Hge]; [left|right];
    (split; [done|]); (split; [done|]); cbn [String.eqb Ascii.eqb Bool.eqb].
  - change (if ("Mbps" =? "Mbps")%string then inject_Z (10 ^ 6) else inject_Z (10 ^ 9))
      with (inject_Z (10 ^ 6)).
    split; [field; discriminate|]. split.
    + apply Qle_shift_div_l; [reflexivity|]. rewrite Qmult_0_l.
      change 0%Q with (inject_Z 0). now rewrite <- Zle_Qle.
    + apply Qlt_shift_div_r; [reflexivity|].
      change (1000 * inject_Z (10 ^ 6))%Q with (inject_Z (10 ^ 9)).
      now rewrite <- Zlt_Qlt.
  - change (if ("Gbps" =? "Mbps")%string then inject_Z (10 ^ 6) else inject_Z (10 ^ 9))
      with (inject_Z (10 ^ 9)).
    split; [field; discriminate|].
    apply Qle_shift_div_l; [reflexivity|]. rewrite Qmult_1_l. now rewrite <- Zle_Qle.
Qed.

Lemma bandwidth_display_bounds_witness :
  (0 <= 1500000000)%Z /\
  (((1500000000 < 10 ^ 9)%Z /\ bandwidth_unit 1500000000 = "Mbps" /\
    (bandwidth_scaled 1500000000 * inject_Z (10 ^ 6) == inject_Z 1500000000)%Q /\
    (0 <= bandwidth_scaled 1500000000 < 1000)%Q) \/
   ((10 ^ 9 <= 1500000000)%Z /\ bandwidth_unit 1500000000 = "Gbps" /\
    (bandwidth_scaled 1500000000 * inject_Z (10 ^ 9) == inject_Z 1500000000)%Q /\
    (1 <= bandwidth_scaled 1500000000)%Q)).
Proof.
  split; [lia|]. apply (bandwidth_display_bounds 1500000000). lia.
Defined.

(** ** The accepted addresses *)

Lemma list_ascii_of_string_append (s r : string) :
  list_ascii_of_string (s +:+ r) = list_ascii_of_string s ++ list_ascii_of_string r.
Proof.
  induction s as [|c s IH]; [done|].
  change (String c s +:+ r) with (String c (s +:+ r)).
  cbn [list_ascii_of_string]. now rewrite IH.
Qed.

Lemma dotted_quad_two_chars (q : string) :
  dotted_quad q = true -> exists c1 c2 q', q = String c1 (String c2 q').
Proof.
  destruct q as [|c1 [|c2 q']]; [discriminate| |eauto].
  unfold dotted_quad, quad. cbn. now destruct (Ascii.eqb c1 ".").
Qed.

Lemma prefix_zero_dot_append (q r : string) :
  dotted_quad q = true -> String.prefix "0." (q +:+ r) = String.prefix "0." q.
Proof.
  intros (c1 & c2 & q' & ->)%dotted_quad_two_chars.
  change (String c1 (String c2 q') +:+ r) with (String c1 (String c2 (q' +:+ r))).
  cbn [String.prefix].
  destruct (Ascii.ascii_dec "0" c1); [|done].
  destruct (Ascii.ascii_dec "." c2); [|done].
  generalize (q' +:+ r). intros w. now destruct q', w.
Qed.

(** X14: [is_valid_ip] accepts exactly the dotted quads that do not start
    with "0.", and each of them followed by one line feed. *)
Theorem is_valid_ip_accepted_strings (ip : string) :
  is_valid_ip ip = true <->
  exists q, dotted_quad q = true /\ String.prefix "0." q = false /\
            (ip = q \/ ip = q +:+ String line_feed "").
Proof.
  unfold is_valid_ip. rewrite andb_true_iff, negb_true_iff, match_anchored_spec. split.
  - intros [[Hq | (w & Hs & Hw)] Hp].
    + exists ip. split; [now apply quad_lang|]. auto.
    + assert (ip = string_of_list_ascii w +:+ String line_feed "") as E.
      { rewrite <- (string_of_list_ascii_of_string ip), Hs.
        rewrite <- (list_ascii_of_string_of_list_ascii w) at 1.
        change [line_feed] with (list_ascii_of_string (String line_feed "")).
        now rewrite <- list_ascii_of_string_append, string_of_list_ascii_of_string. }
      assert (dotted_quad (string_of_list_ascii w) = true) as Hd.
      { unfold dotted_quad. rewrite list_ascii_of_string_of_list_ascii. now apply quad_lang. }
      exists (string_of_list_ascii w). split; [done|]. split; [|auto].
      rewrite <- (prefix_zero_dot_append _ (String line_feed "") Hd). now rewrite <- E.
  - intros (q & Hd & Hp & [-> | ->]).
    + split; [|done]. left. now apply quad_lang.
    + split; [|now rewrite prefix_zero_dot_append].
      right. exists (list_ascii_of_string q). split; [|now apply quad_lang].
      now rewrite list_ascii_of_string_append.
Qed.

(** ** Batches of captures *)

Lemma appends_ret {A : Type} (a : A) : appends (mret a).
Proof. intros log. cbn. now rewrite app_nil_r. Qed.

Lemma appends_throw {A : Type} (e : exn) : appends (mthrow e : Py A).
Proof. intros log. cbn. now rewrite app_nil_r. Qed.

Lemma appends_logger (lvl : level) (msg : string) : appends (logger lvl msg).
Proof. intros log. reflexivity. Qed.

Lemma appends_bind {A B : Type} (m : Py A) (k : A -> Py B) :
  appends m -> (forall a, appends (k a)) -> appends (m ≫= k).
Proof.
  intros Hm Hk log. unfold mbind, Py_bind. rewrite (Hm log).
  destruct (m []) as [[a|e] l]; cbn.
  - rewrite (Hk a (log ++ l)), (Hk a l). cbn. now rewrite app_assoc.
  - done.
Qed.

Ltac appends_step :=
  first [ apply appends_ret | apply appends_throw | apply appends_logger
        | apply appends_bind; [|intros ?]
        | match goal with
          | |- appends (if ?b then _ else _) => destruct b
          | |- appends (match ?x with _ => _ end) => destruct x
          end ].

Lemma appends_getitem {R V : Type} (df : DataFrame R) (name : string) (field : R -> V) :
  appends (getitem df name field).
Proof. unfold getitem. repeat appends_step. Qed.

Lemma appends_groupby_size {R K : Type} `{Countable K} (df : DataFrame R)
    (names : list string) (key : R -> K) :
  appends (groupby_size df names key).
Proof. unfold groupby_size. repeat appends_step. Qed.

Lemma appends_run (pcap_file : string) (port_scan_threshold : Z)
    (protocol_map : gmap Z string) (capture : list Packet) :
  appends (run pcap_file port_scan_threshold protocol_map capture).
Proof.
  unfold run, read_pcap, extract_packet_data, extract_security_data,
    analyze_packet_data, detect_port_scanning, detect_ddos, value_counts, sys_exit.
  cbv zeta.
  repeat first [ apply appends_getitem | apply appends_groupby_size | appends_step ].
Qed.

Lemma appends_main (port_scan_threshold : Z) (protocol_map : gmap Z string)
    (pcap_files : list (string * list Packet)) :
  appends (main port_scan_threshold protocol_map pcap_files).
Proof.
  induction pcap_files as [|[f c] rest IH]; cbn [main].
  - apply appends_ret.
  - apply appends_bind; [apply appends_run|]. intros _. exact IH.
Qed.

Lemma main_app (port_scan_threshold : Z) (protocol_map : gmap Z string)
    (done_ rest : list (string * list Packet)) log :
  main port_scan_threshold protocol_map (done_ ++ rest) log =
  match main port_scan_threshold protocol_map done_ log with
  | (Returned _, log') => main port_scan_threshold protocol_map rest log'
  | (Raised e, log') => (Raised e, log')
  end.
Proof.
  revert log. induction done_ as [|[f c] done_ IH]; intros log; [done|].
  cbn [app main]. unfold mbind, Py_bind.
  destruct (run f port_scan_threshold protocol_map c log) as [[r|e] l]; [apply IH|done].
Qed.

Lemma main_returns_from (port_scan_threshold : Z) (protocol_map : gmap Z string)
    (pcap_files : list (string * list Packet)) log :
  (exists log', main port_scan_threshold protocol_map pcap_files log = (Returned tt, log')) <->
  Forall (fun file => has_traffic file.2) pcap_files.
Proof.
  revert log. induction pcap_files as [|[f c] rest IH]; intros log.
  - split; [constructor|]. intros _. now exists log.
  - cbn [main]. unfold mbind, Py_bind.
    rewrite (appends_run f port_scan_threshold protocol_map c log).
    destruct (decide (has_traffic c)) as [Hacc|Hno].
    + destruct (run_with_traffic_returns f port_scan_threshold protocol_map c Hacc)
        as (report & l & Hrun).
      unfold call in Hrun. rewrite Hrun. cbn [fst snd]. rewrite IH. split.
      * intros H. now constructor.
      * intros H. now inversion H.
    + destruct (run_without_traffic f port_scan_threshold protocol_map c Hno)
        as (l & Hrun & _).
      unfold call in Hrun. rewrite Hrun. cbn [fst snd]. split.
      * intros (? & [=]).
      * intros H. inversion H. done.
Qed.

(** X15: [main] returns exactly when every capture of the batch has a packet
    that passes the address filter. *)
Theorem main_returns_iff_every_capture_has_traffic (port_scan_threshold : Z)
    (protocol_map : gmap Z string) (pcap_files : list (string * list Packet)) :
  (exists log, call (main port_scan_threshold protocol_map pcap_files) = (Returned tt, log)) <->
  Forall (fun file => has_traffic file.2) pcap_files.
Proof. apply main_returns_from. Qed.

(** X16: [main] stops at the first capture without a packet that passes the
    address filter: it raises [SystemExit(1)] there, and the captures listed
    after it change neither the outcome nor the log. *)
Theorem main_stops_at_first_failure (port_scan_threshold : Z)
    (protocol_map : gmap Z string) (done_ rest : list (string * list Packet))
    (pcap_file : string) (capture : list Packet) :
  Forall (fun file => has_traffic file.2) done_ ->
  ~ has_traffic capture ->
  exists log,
    call (main port_scan_threshold protocol_map (done_ ++ (pcap_file, capture) :: rest)) =
      (Raised (SystemExit 1), log) /\
    call (main port_scan_threshold protocol_map (done_ ++ [(pcap_file, capture)])) =
      (Raised (SystemExit 1), log) /\
    exists level_message, last log = Some (ERROR, level_message).
Proof.
  intros Hdone Hno.
  apply (main_returns_from port_scan_threshold protocol_map done_ []) in Hdone as (l1 & Hmain).
  destruct (run_without_traffic pcap_file port_scan_threshold protocol_map capture Hno)
    as (l2 & Hrun & Herr).
  assert (exists level_message, last l2 = Some (ERROR, level_message)) as [m Hlast].
  { destruct capture as [|p c].
    - rewrite run_no_packets in Hrun. injection Hrun as <-. eexists. reflexivity.
    - apply not_accepted_all_None in Hno.
      rewrite (run_no_traffic pcap_file port_scan_threshold protocol_map (p :: c)) in Hrun
        by done.
      injection Hrun as <-. eexists. reflexivity. }
  exists (l1 ++ l2). unfold call in *. rewrite !main_app, Hmain. cbn [main].
  unfold mbind, Py_bind.
  rewrite (appends_run pcap_file port_scan_threshold protocol_map capture l1), Hrun.
  cbn [fst snd]. split; [done|]. split; [done|].
  exists m. now rewrite last_app, Hlast.
Qed.

Lemma main_stops_at_first_failure_witness :
  exists log,
    call (main 100 protocol_dict
            ([("a.pcap", [tcp_packet "10.0.0.1" "10.0.0.2" 80 "S" 0])] ++
             ("b.pcap", [arp_packet]) ::
             [("c.pcap", [tcp_packet "10.0.0.3" "10.0.0.4" 443 "S" 1])])) =
      (Raised (SystemExit 1), log) /\
    call (main 100 protocol_dict
            ([("a.pcap", [tcp_packet "10.0.0.1" "10.0.0.2" 80 "S" 0])] ++
             [("b.pcap", [arp_packet])])) =
      (Raised (SystemExit 1), log) /\
    exists level_message, last log = Some (ERROR, level_message).
Proof.
  apply (main_stops_at_first_failure 100 protocol_dict
           [("a.pcap", [tcp_packet "10.0.0.1" "10.0.0.2" 80 "S" 0])]
           [("c.pcap", [tcp_packet "10.0.0.3" "10.0.0.4" 443 "S" 1])]
           "b.pcap" [arp_packet]).
  - constructor; [|constructor]. apply Exists_cons_hd. reflexivity.
  - intros H. inversion H as [? ? E | ? ? E]; [discriminate E | inversion E].
Defined.

(** ** The upload handler *)

(** X17: an upload whose name [allowed_file] refuses is answered with status
    400 and one warning in the log, whatever the file holds: the analyzer is
    not run on it. *)
Theorem refused_upload_not_analysed (protocol_map : gmap Z string) (filepath : string)
    (A : Type) (rest_of_try : Report -> Py A) (filename : string) (capture : list Packet) :
  App.allowed_file filename = false ->
  exists message warning,
    call (analyze_pcap protocol_map filepath A rest_of_try (Some (filename, capture))) =
    (Returned (reply_error message 400), [(WARNING, warning)]).
Proof.
  intros Hno. unfold call, analyze_pcap.
  destruct (String.eqb filename ""); [eexists _, _; reflexivity|].
  rewrite Hno. eexists _, _; reflexivity.
Qed.

Lemma refused_upload_not_analysed_witness :
  exists message warning,
    call (analyze_pcap protocol_dict "uploads/x_notes.txt" unit (fun _ => mret tt)
            (Some ("notes.txt", [tcp_packet "10.0.0.1" "10.0.0.2" 80 "S" 0]))) =
    (Returned (reply_error message 400), [(WARNING, warning)]).
Proof.
  apply (refused_upload_not_analysed protocol_dict "uploads/x_notes.txt" unit
           (fun _ => mret tt) "notes.txt"). reflexivity.
Defined.




